(** * The TDM scheduler of MPTCP (net/mptcp/mptcp_tdm.c)

    A shallow embedding of the scheduler's three entry points
    (mptcp_tdm_is_available, tdm_get_available_subflow and
    mptcp_tdm_next_segment) and the properties of its quota rounds.

    Conventions.
    - C integers are values of Z; every operation that can wrap in C has its
      reduction written out (u8: mod 2^8, unsigned int / u32: mod 2^32,
      int: [to_int]).
    - A [struct sock *] pointing at a subflow is the position of that subflow
      in the connection list, in the order of mptcp_for_each_sub; NULL is
      [None].
    - What the file reads through helpers of other kernel headers
      (mptcp_sk_can_send, tcp_is_reno, tcp_packets_in_flight, tcp_wnd_end,
      tcp_current_mss, mptcp_is_data_fin, tcp_send_head) is a field of the
      state that holds the helper's value. *)

From Stdlib Require Import ZArith Bool Lia.
From stdpp Require Import base option list.

Local Open Scope Z_scope.

(** ** Machine arithmetic *)

Definition u8 (z : Z) : Z := z mod 2 ^ 8.
Definition u32 (z : Z) : Z := z mod 2 ^ 32.

Definition INT_MIN : Z := - 2 ^ 31.
Definition INT_MAX : Z := 2 ^ 31 - 1.

(** Conversion of a value to C int (two's complement, as the kernel is
    built: signed arithmetic wraps). *)
Definition to_int (z : Z) : Z :=
  let m := u32 z in if m <? 2 ^ 31 then m else m - 2 ^ 32.

Definition int_range (z : Z) : bool := (INT_MIN <=? z) && (z <=? INT_MAX).

(** Modelled from the spec: before() is a macro of net/tcp.h, absent here.
    The spec reads the zero-window test as "the next-write cursor has reached
    or passed the window boundary", the negation of before(cursor, boundary);
    on 32-bit sequence numbers before(a, b) is (s32)(a - b) < 0. *)
Definition before (a b : Z) : bool := to_int (a - b) <? 0.

(** Modelled from the spec: DIV_ROUND_UP is a macro of linux/kernel.h, absent
    here. The spec reads it as ceil(length / max_unit_size); on unsigned int
    operands it is ((n + d - 1) / d), the sum reduced to 32 bits. *)
Definition DIV_ROUND_UP (n d : Z) : Z := u32 (n + d - 1) / d.

(** The spec's wording of the quota increment: the ceiling of a quotient. *)
Definition ceil_div (n d : Z) : Z := - ((- n) / d).

(** Modelled from the spec: mptcp_pi_to_flag is an inline function of
    net/mptcp.h, absent here. The spec's carried-path set of a segment, keyed
    by path index, is the bit mask path_mask; path index pi owns bit pi - 1. *)
Definition mptcp_pi_to_flag (pi : Z) : Z := Z.shiftl 1 (pi - 1).

(** RCV_SHUTDOWN of net/sock.h. *)
Definition RCV_SHUTDOWN : Z := 1.

(** ** Data model *)

(** enum tcp_ca_state of linux/tcp.h. *)
Inductive tcp_ca_state : Type :=
  | TCP_CA_Open | TCP_CA_Disorder | TCP_CA_CWR | TCP_CA_Recovery | TCP_CA_Loss.

(** One subflow: the fields of struct sock, struct tcp_sock and
    tp->mptcp that the scheduler reads, and its private quota. *)
Record tcp_sock : Type := mk_tcp_sock {
  curr_tdn : Z;               (* tp->curr_tdn *)
  path_index : Z;             (* tp->mptcp->path_index, u8 *)
  sk_can_send : bool;         (* mptcp_sk_can_send(sk) *)
  pre_established : bool;     (* tp->mptcp->pre_established *)
  pf : bool;                  (* tp->pf *)
  icsk_ca_state : tcp_ca_state;
  is_reno : bool;             (* tcp_is_reno(tp) *)
  snd_una : Z;                (* u32 *)
  high_seq : Z;               (* u32 *)
  fully_established : bool;   (* tp->mptcp->fully_established *)
  second_packet : bool;       (* tp->mptcp->second_packet *)
  last_end_data_seq : Z;      (* tp->mptcp->last_end_data_seq, u32 *)
  packets_in_flight : Z;      (* tcp_packets_in_flight(tp), unsigned int *)
  snd_cwnd : Z;               (* u32 *)
  mss_cache : Z;              (* u32 *)
  write_seq : Z;              (* u32 *)
  snd_nxt : Z;                (* u32 *)
  wnd_end : Z;                (* tcp_wnd_end(tp), u32 *)
  current_mss : Z;            (* tcp_current_mss(sk), unsigned int *)
  quota : Z                   (* tdmsched_get_priv(tp)->quota, int *)
}.

(** tdm_p->quota = q. *)
Definition set_quota (q : Z) (tp : tcp_sock) : tcp_sock :=
  {| curr_tdn := curr_tdn tp; path_index := path_index tp;
     sk_can_send := sk_can_send tp; pre_established := pre_established tp;
     pf := pf tp; icsk_ca_state := icsk_ca_state tp; is_reno := is_reno tp;
     snd_una := snd_una tp; high_seq := high_seq tp;
     fully_established := fully_established tp;
     second_packet := second_packet tp;
     last_end_data_seq := last_end_data_seq tp;
     packets_in_flight := packets_in_flight tp; snd_cwnd := snd_cwnd tp;
     mss_cache := mss_cache tp; write_seq := write_seq tp;
     snd_nxt := snd_nxt tp; wnd_end := wnd_end tp;
     current_mss := current_mss tp; quota := q |}.

(** One segment: the fields of struct sk_buff and TCP_SKB_CB(skb) read or
    written by the scheduler. *)
Record sk_buff : Type := mk_sk_buff {
  cb_seq : Z;                 (* TCP_SKB_CB(skb)->seq, u32 *)
  skb_len : Z;                (* skb->len, unsigned int *)
  path_mask : Z;              (* TCP_SKB_CB(skb)->path_mask, u32 *)
  is_data_fin : bool          (* mptcp_is_data_fin(skb) *)
}.

(** TCP_SKB_CB(skb)->path_mask = m. *)
Definition set_path_mask (m : Z) (skb : sk_buff) : sk_buff :=
  {| cb_seq := cb_seq skb; skb_len := skb_len skb; path_mask := m;
     is_data_fin := is_data_fin skb |}.

(** The meta socket with its control block (mpcb). *)
Record meta_sock : Type := mk_meta_sock {
  sk_shutdown : Z;                   (* meta_sk->sk_shutdown *)
  infinite_mapping_snd : bool;       (* mpcb->infinite_mapping_snd *)
  send_infinite_mapping : bool;      (* mpcb->send_infinite_mapping *)
  dfin_path_index : Z;               (* mpcb->dfin_path_index *)
  reinject_queue : list sk_buff;     (* mpcb->reinject_queue, head first *)
  send_head : option sk_buff;        (* tcp_send_head(meta_sk) *)
  conn_list : list tcp_sock          (* mptcp_for_each_sub(mpcb, ...) *)
}.

Definition set_conn_list (l : list tcp_sock) (m : meta_sock) : meta_sock :=
  {| sk_shutdown := sk_shutdown m;
     infinite_mapping_snd := infinite_mapping_snd m;
     send_infinite_mapping := send_infinite_mapping m;
     dfin_path_index := dfin_path_index m;
     reinject_queue := reinject_queue m; send_head := send_head m;
     conn_list := l |}.

Definition set_reinject_queue (q : list sk_buff) (m : meta_sock) : meta_sock :=
  {| sk_shutdown := sk_shutdown m;
     infinite_mapping_snd := infinite_mapping_snd m;
     send_infinite_mapping := send_infinite_mapping m;
     dfin_path_index := dfin_path_index m;
     reinject_queue := q; send_head := send_head m;
     conn_list := conn_list m |}.

Definition set_sk_shutdown (v : Z) (m : meta_sock) : meta_sock :=
  {| sk_shutdown := v;
     infinite_mapping_snd := infinite_mapping_snd m;
     send_infinite_mapping := send_infinite_mapping m;
     dfin_path_index := dfin_path_index m;
     reinject_queue := reinject_queue m; send_head := send_head m;
     conn_list := conn_list m |}.

(** The two module parameters, read at every use. *)
Record tdm_params : Type := mk_tdm_params {
  num_segments : Z;           (* static int num_segments = 10000 *)
  cwnd_limited : bool         (* static bool cwnd_limited = 1 *)
}.

Definition default_params : tdm_params :=
  {| num_segments := 10000; cwnd_limited := true |}.

(** module_param(num_segments, int, 0644): a parameter of C type int,
    writable at run time. The file gives it no setter of its own, so a write
    goes through the kernel's setter for int, which stores every value that
    is an int and refuses (-ERANGE) what is not. *)
Definition param_set_num_segments (v : Z) (p : tdm_params) : option tdm_params :=
  if int_range v
  then Some {| num_segments := v; cwnd_limited := cwnd_limited p |}
  else None.

(** ** mptcp_tdm_is_available *)

(** The test of line 33; curr_tdn and path_index are compared as ints
    (path_index - 1 is computed after integer promotion). When it holds the
    function prints a warning and returns false. *)
Definition tdn_mismatch (tp : tcp_sock) : bool :=
  negb (curr_tdn tp =? path_index tp - 1).

(** Is the subflow available to send the skb? The meta socket argument of
    the C function is used in the text of the warning only. *)
Definition mptcp_tdm_is_available (tp : tcp_sock) (skb : option sk_buff)
    (zero_wnd_test cwnd_test : bool) : bool :=
  if tdn_mismatch tp then false
  else if negb (sk_can_send tp) then false
  else if pre_established tp then false
  else if pf tp then false
  else if match icsk_ca_state tp with
          | TCP_CA_Loss =>
              if negb (is_reno tp) then true
              else negb (snd_una tp =? high_seq tp)
          | _ => false
          end then false
  else if negb (fully_established tp) &&
          match skb with
          | Some b => second_packet tp &&
                      negb (last_end_data_seq tp =? cb_seq b)
          | None => false
          end then false
  else if cwnd_test &&
          (let in_flight := packets_in_flight tp in
           if snd_cwnd tp <=? in_flight then true
           else
             let space := u32 (u32 (snd_cwnd tp - in_flight) * mss_cache tp) in
             space <? u32 (write_seq tp - snd_nxt tp)) then false
  else if zero_wnd_test && negb (before (write_seq tp) (wnd_end tp)) then false
  else true.

(** ** tdm_get_available_subflow *)

(** Are we not allowed to reinject this skb on tp? (the C function returns
    the truth value of [skb && (flag & path_mask)]). *)
Definition mptcp_tdm_dont_reinject_skb (tp : tcp_sock) (skb : option sk_buff)
    : bool :=
  match skb with
  | Some b => negb (Z.land (mptcp_pi_to_flag (path_index tp)) (path_mask b) =? 0)
  | None => false
  end.

(** The loop of lines 122-128, from position [idx] on. [inl i] is the
    [return sk] inside the loop, at subflow [i]; [inr sk] is the value the
    local variable sk has when the loop runs to its end. *)
Fixpoint dfin_loop (dfin : Z) (skb : option sk_buff) (zero_wnd_test : bool)
    (subs : list tcp_sock) (idx : nat) (sk : option nat) : nat + option nat :=
  match subs with
  | [] => inr sk
  | tp :: rest =>
      if (path_index tp =? dfin) &&
         mptcp_tdm_is_available tp skb zero_wnd_test true
      then inl idx
      else dfin_loop dfin skb zero_wnd_test rest (S idx) (Some idx)
  end.

(** The three local pointers of tdm_get_available_subflow. *)
Record sub_choice : Type := mk_sub_choice {
  sk : option nat;
  bestsk : option nat;
  backupsk : option nat
}.

(** The loop of lines 132-148, from position [idx] on. The loop body starts
    with [sk = mptcp_to_sock(mptcp)] for every subflow it visits. *)
Fixpoint best_loop (skb : option sk_buff) (zero_wnd_test : bool)
    (subs : list tcp_sock) (idx : nat) (c : sub_choice) : sub_choice :=
  match subs with
  | [] => c
  | tp :: rest =>
      let c1 := {| sk := Some idx; bestsk := bestsk c; backupsk := backupsk c |} in
      if negb (mptcp_tdm_is_available tp skb zero_wnd_test true)
      then best_loop skb zero_wnd_test rest (S idx) c1
      else if mptcp_tdm_dont_reinject_skb tp skb
      then best_loop skb zero_wnd_test rest (S idx)
             {| sk := Some idx; bestsk := bestsk c; backupsk := Some idx |}
      else best_loop skb zero_wnd_test rest (S idx)
             {| sk := Some idx; bestsk := Some idx; backupsk := backupsk c |}
  end.

(** The test of lines 120-121. *)
Definition answers_data_fin (meta : meta_sock) (skb : option sk_buff) : bool :=
  negb (Z.land (sk_shutdown meta) RCV_SHUTDOWN =? 0) &&
  match skb with Some b => is_data_fin b | None => false end.

(** We just look for any subflow that is available. The result is the
    returned pointer and the skb after the call (its path_mask can be
    reset). *)
Definition tdm_get_available_subflow (meta : meta_sock) (skb : option sk_buff)
    (zero_wnd_test : bool) : option nat * option sk_buff :=
  let subs := conn_list meta in
  match (if answers_data_fin meta skb
         then dfin_loop (dfin_path_index meta) skb zero_wnd_test subs 0%nat None
         else inr None) with
  | inl i => (Some i, skb)
  | inr sk0 =>
      let c := best_loop skb zero_wnd_test subs 0%nat
                 {| sk := sk0; bestsk := None; backupsk := None |} in
      match bestsk c with
      | Some b => (Some b, skb)
      | None =>
          match backupsk c with
          | Some b => (Some b, set_path_mask 0 <$> skb)
          | None => (sk c, skb)
          end
      end
  end.

(** ** mptcp_tdm_next_segment *)

(** Returns the next segment of the meta queues and the value stored in
    *reinject. *)
Definition __mptcp_tdm_next_segment (meta : meta_sock) : option sk_buff * Z :=
  if infinite_mapping_snd meta || send_infinite_mapping meta
  then (send_head meta, 0)
  else
    match reinject_queue meta with
    | b :: _ => (Some b, 1)
    | [] => (send_head meta, 0)
    end.

(** The locals of mptcp_tdm_next_segment that live across the retry label:
    iter and full_subs are unsigned char, split is int. *)
Record scan_state : Type := mk_scan_state {
  iter : Z;
  full_subs : Z;
  split : Z;
  choose_sk : option nat
}.

(** The state at the first arrival at the retry label. *)
Definition scan_init (p : tdm_params) : scan_state :=
  {| iter := 0; full_subs := 0; split := num_segments p; choose_sk := None |}.

(** The loop of lines 221-248 from position [idx] on. The boolean is true
    when the loop was left by [goto found]. In the branch of line 233 the
    subtraction cannot wrap (0 < quota < num_segments). *)
Fixpoint scan_loop (p : tdm_params) (skb : sk_buff) (subs : list tcp_sock)
    (idx : nat) (st : scan_state) : scan_state * bool :=
  match subs with
  | [] => (st, false)
  | tp :: rest =>
      if negb (mptcp_tdm_is_available tp (Some skb) false (cwnd_limited p))
      then scan_loop p skb rest (S idx) st
      else
        let it := u8 (iter st + 1) in
        if (0 <? quota tp) && (quota tp <? num_segments p)
        then ({| iter := it; full_subs := full_subs st;
                 split := num_segments p - quota tp;
                 choose_sk := Some idx |}, true)
        else
          let st1 :=
            if quota tp =? 0
            then {| iter := it; full_subs := full_subs st;
                    split := num_segments p; choose_sk := Some idx |}
            else {| iter := it; full_subs := full_subs st;
                    split := split st; choose_sk := choose_sk st |} in
          let st2 :=
            if num_segments p <=? quota tp
            then {| iter := iter st1; full_subs := u8 (full_subs st1 + 1);
                    split := split st1; choose_sk := choose_sk st1 |}
            else st1 in
          scan_loop p skb rest (S idx) st2
  end.

(** The loop of lines 257-267: quota = 0 on every subflow that passes the
    availability test of the scan. *)
Definition reset_quotas (p : tdm_params) (skb : sk_buff)
    (subs : list tcp_sock) : list tcp_sock :=
  (fun tp =>
     if mptcp_tdm_is_available tp (Some skb) false (cwnd_limited p)
     then set_quota 0 tp else tp) <$> subs.

(** The test of line 253. *)
Definition round_exhausted (st : scan_state) : bool :=
  negb (iter st =? 0) && (iter st =? full_subs st).

(** Lines 218-270: from the retry label to the found label. [fuel] bounds
    the number of times control passes the retry label, that is the number
    of scans; [None] means that the bound was reached with a further
    [goto retry] pending. *)
Fixpoint retry (fuel : nat) (p : tdm_params) (skb : sk_buff)
    (subs : list tcp_sock) (st : scan_state)
    : option (list tcp_sock * scan_state) :=
  match fuel with
  | O => None
  | S fuel' =>
      let '(st', by_goto) := scan_loop p skb subs 0%nat st in
      if by_goto then Some (subs, st')
      else if round_exhausted st'
      then retry fuel' p skb (reset_quotas p skb subs) st'
      else Some (subs, st')
  end.

(** How a call ends. *)
Inductive outcome (A : Type) : Type :=
  | Returns (a : A)      (* the function returns *)
  | DivideError          (* DIV_ROUND_UP with mss_now = 0 *)
  | OutOfFuel.           (* more scans than the bound given to [retry] *)
Arguments Returns {A} a.
Arguments DivideError {A}.
Arguments OutOfFuel {A}.

(** What a call of mptcp_tdm_next_segment leaves behind: the returned skb,
    the contents of the three out-parameters and the connection. *)
Record next_segment_result : Type := mk_result {
  ret_skb : option sk_buff;
  out_reinject : Z;
  out_subsk : option nat;
  out_limit : Z;
  out_meta : meta_sock
}.

(** The increment of lines 286-289, before it is added to the quota. *)
Definition quota_increment (skb : sk_buff) (mss_now : Z) : Z :=
  if mss_now <? skb_len skb then DIV_ROUND_UP (skb_len skb) mss_now else 1.

(** The result of a call in the quota branch that selects no subflow: the
    subflows are as the scans left them, *subsk is not written. *)
Definition no_decision (meta : meta_sock) (subsk : option nat)
    (subs : list tcp_sock) : next_segment_result :=
  {| ret_skb := None; out_reinject := 0; out_subsk := subsk; out_limit := 0;
     out_meta := set_conn_list subs meta |}.

(** Lines 272-294: from the found label to the end. *)
Definition found (skb : sk_buff) (meta : meta_sock) (subsk : option nat)
    (subs : list tcp_sock) (st : scan_state) : outcome next_segment_result :=
  match choose_sk st with
  | None => Returns (no_decision meta subsk subs)
  | Some i =>
      match subs !! i with
      | None =>
          (* not reached: choose_sk points into the list, retry_choose_sk *)
          Returns (no_decision meta subsk subs)
      | Some tp =>
          if negb (mptcp_tdm_is_available tp (Some skb) false true)
          then Returns (no_decision meta subsk subs)
          else
            let mss_now := current_mss tp in
            if (mss_now <? skb_len skb) && (mss_now =? 0) then DivideError
            else
              let q := to_int (quota tp + quota_increment skb mss_now) in
              Returns {| ret_skb := Some skb; out_reinject := 0;
                         out_subsk := Some i;
                         out_limit := u32 (split st * mss_now);
                         out_meta :=
                           set_conn_list (alter (set_quota q) i subs) meta |}
      end
  end.

(** The scheduler's next_segment. [subsk] is the content of *subsk at the
    call; *reinject and *limit are always written. *)
Definition mptcp_tdm_next_segment (fuel : nat) (p : tdm_params)
    (meta : meta_sock) (subsk : option nat) : outcome next_segment_result :=
  let '(skb, reinject) := __mptcp_tdm_next_segment meta in
  match skb with
  | None =>
      Returns {| ret_skb := None; out_reinject := reinject;
                 out_subsk := subsk; out_limit := 0; out_meta := meta |}
  | Some b =>
      if negb (reinject =? 0) then
        let '(sel, skb') := tdm_get_available_subflow meta (Some b) false in
        let meta' :=
          match skb' with
          | Some b' => set_reinject_queue (b' :: tail (reinject_queue meta)) meta
          | None => meta
          end in
        match sel with
        | None =>
            Returns {| ret_skb := None; out_reinject := reinject;
                       out_subsk := None; out_limit := 0; out_meta := meta' |}
        | Some i =>
            Returns {| ret_skb := skb'; out_reinject := reinject;
                       out_subsk := Some i; out_limit := 0; out_meta := meta' |}
        end
      else
        match retry fuel p b (conn_list meta) (scan_init p) with
        | None => OutOfFuel
        | Some (subs, st) => found b meta subsk subs st
        end
  end.

(** ** Notions used in the statements *)

(** A subflow passes the availability test of the scan (lines 226 and 262):
    no zero-window test, congestion-window test as cwnd_limited says. *)
Definition eligible (p : tdm_params) (skb : sk_buff) (tp : tcp_sock) : bool :=
  mptcp_tdm_is_available tp (Some skb) false (cwnd_limited p).

(** The round is exhausted: some subflow is eligible and every eligible
    subflow has used its quota. *)
Definition all_full (p : tdm_params) (skb : sk_buff) (subs : list tcp_sock)
    : Prop :=
  (exists tp, tp ∈ subs /\ eligible p skb tp = true) /\
  (forall tp, tp ∈ subs -> eligible p skb tp = true -> num_segments p <= quota tp).

(** Number of subflows of a list that satisfy a test. *)
Fixpoint count_if (f : tcp_sock -> bool) (subs : list tcp_sock) : Z :=
  match subs with
  | [] => 0
  | tp :: rest => (if f tp then 1 else 0) + count_if f rest
  end.

(** The connection is in fallback mode (the test of line 180). *)
Definition fallback (meta : meta_sock) : bool :=
  infinite_mapping_snd meta || send_infinite_mapping meta.

(** The spec's wording of the quota update: ceil(length / max_unit_size)
    when the length exceeds the max unit size, 1 otherwise. *)
Definition spec_increment (skb : sk_buff) (mss : Z) : Z :=
  if mss <? skb_len skb then ceil_div (skb_len skb) mss else 1.

(** The quota update from quota [q0] stays inside the C types: the sum of
    DIV_ROUND_UP fits unsigned int and the new quota fits int. *)
Definition no_wrap (q0 : Z) (skb : sk_buff) (mss : Z) : Prop :=
  0 < mss /\ 0 <= skb_len skb /\ skb_len skb + mss - 1 < 2 ^ 32 /\
  INT_MIN <= q0 /\ q0 + spec_increment skb mss <= INT_MAX.

(** ** Sample states *)

(** A fully established subflow in the Open state with an empty send queue,
    a congestion window of 10 segments of 1460 bytes; [failed] is tp->pf,
    [wnd] the end of the peer's receive window. *)
Definition ex_path (tdn pi : Z) (failed : bool) (wnd q : Z) : tcp_sock :=
  {| curr_tdn := tdn; path_index := pi; sk_can_send := true;
     pre_established := false; pf := failed; icsk_ca_state := TCP_CA_Open;
     is_reno := false; snd_una := 0; high_seq := 0;
     fully_established := true; second_packet := false;
     last_end_data_seq := 0; packets_in_flight := 0; snd_cwnd := 10;
     mss_cache := 1460; write_seq := 0; snd_nxt := 0; wnd_end := wnd;
     current_mss := 1460; quota := q |}.

(** The same subflow with its congestion window full (10 segments in
    flight). *)
Definition ex_path_busy (tdn pi q : Z) : tcp_sock :=
  {| curr_tdn := tdn; path_index := pi; sk_can_send := true;
     pre_established := false; pf := false; icsk_ca_state := TCP_CA_Open;
     is_reno := false; snd_una := 0; high_seq := 0;
     fully_established := true; second_packet := false;
     last_end_data_seq := 0; packets_in_flight := 10; snd_cwnd := 10;
     mss_cache := 1460; write_seq := 0; snd_nxt := 0; wnd_end := 65535;
     current_mss := 1460; quota := q |}.

Definition ex_skb (len mask : Z) (fin : bool) : sk_buff :=
  {| cb_seq := 0; skb_len := len; path_mask := mask; is_data_fin := fin |}.

Definition ex_meta (shutdown : Z) (fb : bool) (dfin : Z) (rq : list sk_buff)
    (head : option sk_buff) (subs : list tcp_sock) : meta_sock :=
  {| sk_shutdown := shutdown; infinite_mapping_snd := fb;
     send_infinite_mapping := false; dfin_path_index := dfin;
     reinject_queue := rq; send_head := head; conn_list := subs |}.

(** The states of a subflow in a round (spec, 4.3): Active, Idle, Full. *)
Definition path_active (p : tdm_params) (skb : sk_buff) (tp : tcp_sock) : bool :=
  eligible p skb tp && (0 <? quota tp) && (quota tp <? num_segments p).

Definition path_idle (p : tdm_params) (skb : sk_buff) (tp : tcp_sock) : bool :=
  eligible p skb tp && (quota tp =? 0).

Definition path_full (p : tdm_params) (skb : sk_buff) (tp : tcp_sock) : bool :=
  eligible p skb tp && (num_segments p <=? quota tp).

(** Position [k] holds the first subflow of the list that satisfies [f]. *)
Definition first_at (f : tcp_sock -> bool) (subs : list tcp_sock) (k : nat)
    (tp : tcp_sock) : Prop :=
  subs !! k = Some tp /\ f tp = true /\
  forall j tp', (j < k)%nat -> subs !! j = Some tp' -> f tp' = false.

(** Position [k] holds the last subflow of the list that satisfies [f]. *)
Definition last_at (f : tcp_sock -> bool) (subs : list tcp_sock) (k : nat)
    (tp : tcp_sock) : Prop :=
  subs !! k = Some tp /\ f tp = true /\
  forall j tp', (k < j)%nat -> subs !! j = Some tp' -> f tp' = false.

(** The counters of the scan are unsigned chars. *)
Definition counters_ok (st : scan_state) : Prop :=
  0 <= iter st < 256 /\ 0 <= full_subs st < 256.

(** A burst is under way on the subflow: its quota is started and not used
    up (the test of line 233). *)
Definition in_burst (p : tdm_params) (tp : tcp_sock) : bool :=
  (0 <? quota tp) && (quota tp <? num_segments p).

(** * Properties *)

(** ** Machine arithmetic *)

Lemma u8_range z : 0 <= u8 z < 256.
Proof. unfold u8. apply Z.mod_pos_bound. reflexivity. Qed.

Lemma u8_small z : 0 <= z < 256 -> u8 z = z.
Proof. intros H. unfold u8. now apply Z.mod_small. Qed.

Lemma u8_add_l a b : u8 (u8 a + b) = u8 (a + b).
Proof. unfold u8. apply Zplus_mod_idemp_l. Qed.

Lemma to_int_small z : INT_MIN <= z <= INT_MAX -> to_int z = z.
Proof.
  unfold INT_MIN, INT_MAX, to_int, u32. intros H.
  destruct (Z.leb_spec 0 z) as [Hz | Hz].
  - rewrite Z.mod_small by lia. destruct (Z.ltb_spec z (2 ^ 31)); lia.
  - replace (z mod 2 ^ 32) with (z + 2 ^ 32).
    + destruct (Z.ltb_spec (z + 2 ^ 32) (2 ^ 31)); lia.
    + apply (Z.mod_unique _ _ (-1)); lia.
Qed.

Lemma DIV_ROUND_UP_ceil n d :
  0 < d -> 0 <= n -> n + d - 1 < 2 ^ 32 -> DIV_ROUND_UP n d = ceil_div n d.
Proof.
  intros Hd Hn Hs. unfold DIV_ROUND_UP, ceil_div, u32.
  rewrite Z.mod_small by lia.
  symmetry. apply Z.div_unique with (r := n + d - 1 - d * - (- n / d)); [| lia].
  left. pose proof (Z.div_mod (- n) d). pose proof (Z.mod_pos_bound (- n) d). lia.
Qed.

Lemma spec_increment_pos skb mss :
  0 < mss -> 0 <= skb_len skb -> 0 < spec_increment skb mss.
Proof.
  intros Hm Hl. unfold spec_increment, ceil_div.
  destruct (Z.ltb_spec mss (skb_len skb)); [| lia].
  pose proof (Z.div_mod (- skb_len skb) mss). pose proof (Z.mod_pos_bound (- skb_len skb) mss).
  nia.
Qed.

(** Inside the C types the update is the one of the spec. *)
Lemma quota_update_exact q0 skb mss :
  no_wrap q0 skb mss ->
  to_int (q0 + quota_increment skb mss) = q0 + spec_increment skb mss /\
  q0 < q0 + spec_increment skb mss.
Proof.
  intros (Hm & Hl & Hs & Hq & Hmax).
  pose proof (spec_increment_pos skb mss Hm Hl) as Hpos.
  assert (Heq : quota_increment skb mss = spec_increment skb mss).
  { unfold quota_increment, spec_increment.
    destruct (mss <? skb_len skb); [now apply DIV_ROUND_UP_ceil | reflexivity]. }
  rewrite Heq. split; [apply to_int_small; lia | lia].
Qed.

Lemma set_quota_same tp : set_quota (quota tp) tp = tp.
Proof. now destruct tp. Qed.

Lemma set_quota_twice q q' tp : set_quota q (set_quota q' tp) = set_quota q tp.
Proof. reflexivity. Qed.

(** ** Eligibility *)

(** The availability test does not read the quota. *)
Lemma is_available_set_quota q tp skb z c :
  mptcp_tdm_is_available (set_quota q tp) skb z c =
  mptcp_tdm_is_available tp skb z c.
Proof. reflexivity. Qed.

Lemma eligible_set_quota p skb q tp :
  eligible p skb (set_quota q tp) = eligible p skb tp.
Proof. reflexivity. Qed.

(** C1 (as amended): a subflow whose curr_tdn differs from path_index - 1
    is never available: the test of line 33 returns false before any other
    test is made, whatever the skb and the two flags are. *)
Theorem C1_tdn_mismatch_is_unavailable tp skb zero_wnd_test cwnd_test :
  curr_tdn tp <> path_index tp - 1 ->
  mptcp_tdm_is_available tp skb zero_wnd_test cwnd_test = false.
Proof.
  intros Hne. unfold mptcp_tdm_is_available, tdn_mismatch.
  destruct (Z.eqb_spec (curr_tdn tp) (path_index tp - 1)) as [Heq | _].
  - contradiction.
  - reflexivity.
Qed.

Lemma C1_tdn_mismatch_is_unavailable_witness :
  curr_tdn (ex_path 0 2 false 65535 0) <> path_index (ex_path 0 2 false 65535 0) - 1 /\
  mptcp_tdm_is_available (ex_path 0 2 false 65535 0) None false false = false.
Proof.
  split.
  - simpl. lia.
  - apply (C1_tdn_mismatch_is_unavailable (ex_path 0 2 false 65535 0)).
    simpl. lia.
Defined.

(** C1 (as stated) fails: two subflows that differ in curr_tdn only, the one
    with curr_tdn = path_index - 1 is available, the other is not. *)
Lemma C1_mismatch_alone_rejects :
  mptcp_tdm_is_available (ex_path 1 2 false 65535 0) None false false = true /\
  mptcp_tdm_is_available (ex_path 0 2 false 65535 0) None false false = false.
Proof. split; reflexivity. Qed.

(** ** Path choice by tdm_get_available_subflow *)

Section GetSubflow.

Variables (skb : option sk_buff) (zero_wnd_test : bool).

Local Abbreviation avail :=
  (fun tp => mptcp_tdm_is_available tp skb zero_wnd_test true).

(** An available subflow that has not carried the skb, and one that has. *)
Local Abbreviation fresh :=
  (fun tp => mptcp_tdm_is_available tp skb zero_wnd_test true &&
             negb (mptcp_tdm_dont_reinject_skb tp skb)).
Local Abbreviation carried :=
  (fun tp => mptcp_tdm_is_available tp skb zero_wnd_test true &&
             mptcp_tdm_dont_reinject_skb tp skb).

(** The data-fin loop returns the first available subflow whose path index
    is the one the DATA_FIN came in on. *)
Lemma dfin_loop_first dfin subs : forall idx sk0 i tp,
  subs !! i = Some tp ->
  path_index tp = dfin -> avail tp = true ->
  (forall j tp', (j < i)%nat -> subs !! j = Some tp' ->
                 path_index tp' = dfin -> avail tp' = false) ->
  dfin_loop dfin skb zero_wnd_test subs idx sk0 = inl (idx + i)%nat.
Proof.
  induction subs as [| a rest IH]; intros idx sk0 i tp Hi Hpi Hav Hmin.
  - discriminate.
  - destruct i as [| i]; simpl in *.
    + injection Hi as ->. rewrite Hav.
      rewrite (proj2 (Z.eqb_eq _ _) Hpi). simpl. f_equal. lia.
    + destruct (Z.eqb_spec (path_index a) dfin) as [Ha | Ha]; simpl.
      * rewrite (Hmin 0%nat a); [| lia | reflexivity | exact Ha].
        rewrite (IH (S idx) (Some idx) i tp Hi Hpi Hav).
        -- f_equal. lia.
        -- intros j tp' Hj. apply (Hmin (S j)). lia.
      * rewrite (IH (S idx) (Some idx) i tp Hi Hpi Hav).
        -- f_equal. lia.
        -- intros j tp' Hj. apply (Hmin (S j)). lia.
Qed.

(** When no subflow with that path index is available the loop runs to its
    end. *)
Lemma dfin_loop_none dfin subs : forall idx sk0,
  (forall tp, tp ∈ subs -> path_index tp = dfin -> avail tp = false) ->
  exists sk1, dfin_loop dfin skb zero_wnd_test subs idx sk0 = inr sk1.
Proof.
  induction subs as [| a rest IH]; intros idx sk0 Hno; simpl.
  - eauto.
  - destruct (Z.eqb_spec (path_index a) dfin) as [Ha | Ha]; simpl.
    + rewrite (Hno a); [| left | exact Ha].
      apply IH. intros tp Htp. apply Hno. now right.
    + apply IH. intros tp Htp. apply Hno. now right.
Qed.

(** After the main loop sk points at the last subflow of the list. *)
Lemma best_loop_sk subs : forall idx c,
  sk (best_loop skb zero_wnd_test subs idx c) =
  match subs with
  | [] => sk c
  | _ :: _ => Some (idx + length subs - 1)%nat
  end.
Proof.
  induction subs as [| a rest IH]; intros idx c; [reflexivity |].
  simpl.
  destruct (mptcp_tdm_is_available a skb zero_wnd_test true); simpl;
    [destruct (mptcp_tdm_dont_reinject_skb a skb) |];
    rewrite IH; simpl; (destruct rest; simpl; f_equal; lia).
Qed.

Lemma best_loop_none_available subs : forall idx c,
  (forall tp, tp ∈ subs -> avail tp = false) ->
  bestsk (best_loop skb zero_wnd_test subs idx c) = bestsk c /\
  backupsk (best_loop skb zero_wnd_test subs idx c) = backupsk c.
Proof.
  induction subs as [| a rest IH]; intros idx c Hno; [split; reflexivity |].
  simpl. rewrite (Hno a) by left. simpl.
  destruct (IH (S idx) {| sk := Some idx; bestsk := bestsk c; backupsk := backupsk c |})
    as [H1 H2].
  - intros tp Htp. apply Hno. now right.
  - now rewrite H1, H2.
Qed.

(** bestsk is the last available subflow that has not carried the skb,
    backupsk the last available subflow that has. *)
Lemma best_loop_choice subs : forall idx c,
  ((exists k tp, last_at fresh subs k tp /\
      bestsk (best_loop skb zero_wnd_test subs idx c) = Some (idx + k)%nat) \/
   ((forall tp, tp ∈ subs -> fresh tp = false) /\
    bestsk (best_loop skb zero_wnd_test subs idx c) = bestsk c)) /\
  ((exists k tp, last_at carried subs k tp /\
      backupsk (best_loop skb zero_wnd_test subs idx c) = Some (idx + k)%nat) \/
   ((forall tp, tp ∈ subs -> carried tp = false) /\
    backupsk (best_loop skb zero_wnd_test subs idx c) = backupsk c)).
Proof.
  induction subs as [| a rest IH]; intros idx c.
  - split; right; (split; [intros tp Htp; inversion Htp | reflexivity]).
  - assert (Hlift : forall f k tp, last_at f rest k tp ->
                                   last_at f (a :: rest) (S k) tp).
    { intros f k tp (Hk & Hf & Hmax). repeat split; auto.
      intros [| j] tp' Hj Hl; [lia |]. apply (Hmax j); [lia | exact Hl]. }
    assert (Hhead : forall f, f a = true ->
                      (forall tp, tp ∈ rest -> f tp = false) ->
                      last_at f (a :: rest) 0 a).
    { intros f Ha Hno. repeat split; auto.
      intros [| j] tp' Hj Hl; [lia |]. apply Hno.
      apply list_elem_of_lookup. eauto. }
    assert (Hnone : forall f, f a = false ->
                      (forall tp, tp ∈ rest -> f tp = false) ->
                      forall tp, tp ∈ a :: rest -> f tp = false).
    { intros f Ha Hno tp Htp. apply elem_of_cons in Htp as [-> | Htp]; auto. }
    simpl best_loop.
    destruct (mptcp_tdm_is_available a skb zero_wnd_test true) eqn:Hav;
      [destruct (mptcp_tdm_dont_reinject_skb a skb) eqn:Hre |]; simpl;
      match goal with
      | |- context [best_loop _ _ rest (S idx) ?c1] =>
          destruct (IH (S idx) c1) as [[(k & tp & Hl & Hb) | (Hno & Hb)]
                                       [(k' & tp' & Hl' & Hb') | (Hno' & Hb')]]
      end; simpl in Hb, Hb'; split;
      try (left; eexists (S _), _; split; [apply Hlift; eassumption |];
           first [rewrite Hb | rewrite Hb']; f_equal; lia);
      try (right; split; [apply Hnone; [rewrite Hav; try rewrite Hre; reflexivity | assumption] | assumption]);
      try (left; exists 0%nat, a; split;
           [apply Hhead; [rewrite Hav, Hre; reflexivity | assumption] |];
           first [rewrite Hb | rewrite Hb']; f_equal; lia).
Qed.

End GetSubflow.

(** Outside the data-fin branch, when an available subflow has not carried
    the skb, the last such subflow is returned and the skb is left as it
    is. *)
Lemma get_subflow_prefers_fresh meta skb zero_wnd_test tp0 :
  answers_data_fin meta skb = false ->
  tp0 ∈ conn_list meta ->
  mptcp_tdm_is_available tp0 skb zero_wnd_test true = true ->
  mptcp_tdm_dont_reinject_skb tp0 skb = false ->
  exists i tp,
    tdm_get_available_subflow meta skb zero_wnd_test = (Some i, skb) /\
    last_at (fun tp => mptcp_tdm_is_available tp skb zero_wnd_test true &&
                       negb (mptcp_tdm_dont_reinject_skb tp skb))
      (conn_list meta) i tp.
Proof.
  intros Hfin Hin Hav Hre. unfold tdm_get_available_subflow. rewrite Hfin.
  destruct (best_loop_choice skb zero_wnd_test (conn_list meta) 0%nat
              {| sk := None; bestsk := None; backupsk := None |})
    as [[(k & tp & Hl & Hb) | (Hno & _)] _].
  - rewrite Hb. exists k, tp. split; [reflexivity | exact Hl].
  - specialize (Hno tp0 Hin). simpl in Hno. rewrite Hav, Hre in Hno. discriminate.
Qed.

(** Outside the data-fin branch, when some subflow is available and every
    available subflow has carried the skb, the last available subflow is
    returned and the path mask of the skb is cleared. *)
Lemma get_subflow_reuses_carried meta skb zero_wnd_test tp0 :
  answers_data_fin meta skb = false ->
  tp0 ∈ conn_list meta ->
  mptcp_tdm_is_available tp0 skb zero_wnd_test true = true ->
  (forall tp, tp ∈ conn_list meta ->
     mptcp_tdm_is_available tp skb zero_wnd_test true = true ->
     mptcp_tdm_dont_reinject_skb tp skb = true) ->
  exists i tp,
    tdm_get_available_subflow meta skb zero_wnd_test =
      (Some i, set_path_mask 0 <$> skb) /\
    last_at (fun tp => mptcp_tdm_is_available tp skb zero_wnd_test true)
      (conn_list meta) i tp.
Proof.
  intros Hfin Hin Hav Hall. unfold tdm_get_available_subflow. rewrite Hfin.
  destruct (best_loop_choice skb zero_wnd_test (conn_list meta) 0%nat
              {| sk := None; bestsk := None; backupsk := None |})
    as [[(k & tp & (Hk & Hf & _) & _) | (_ & Hb)]
        [(k' & tp' & (Hk' & Hf' & Hmax') & Hb') | (Hno' & _)]].
  - apply andb_true_iff in Hf as [Ha Hn].
    rewrite (Hall tp) in Hn; [discriminate | | exact Ha].
    apply list_elem_of_lookup. eauto.
  - apply andb_true_iff in Hf as [Ha Hn].
    rewrite (Hall tp) in Hn; [discriminate | | exact Ha].
    apply list_elem_of_lookup. eauto.
  - rewrite Hb, Hb'. simpl. exists k', tp'. split; [reflexivity |].
    apply andb_true_iff in Hf' as [Ha' _].
    repeat split; auto.
    intros j tp1 Hj Hl.
    destruct (mptcp_tdm_is_available tp1 skb zero_wnd_test true) eqn:Ha1;
      [| reflexivity].
    specialize (Hmax' j tp1 Hj Hl). simpl in Hmax'. rewrite Ha1 in Hmax'.
    rewrite (Hall tp1) in Hmax'; [discriminate | | exact Ha1].
    apply list_elem_of_lookup. eauto.
  - specialize (Hno' tp0 Hin). simpl in Hno'.
    rewrite Hav, (Hall tp0 Hin Hav) in Hno'. discriminate.
Qed.

(** Without an available subflow, and outside the data-fin branch, the
    function returns the last subflow of the list, not NULL. *)
Lemma get_subflow_none_available meta skb zero_wnd_test :
  answers_data_fin meta skb = false ->
  (forall tp, tp ∈ conn_list meta ->
              mptcp_tdm_is_available tp skb zero_wnd_test true = false) ->
  tdm_get_available_subflow meta skb zero_wnd_test =
  (match conn_list meta with
   | [] => None
   | _ :: _ => Some (length (conn_list meta) - 1)%nat
   end, skb).
Proof.
  intros Hfin Hno. unfold tdm_get_available_subflow. rewrite Hfin.
  destruct (best_loop_none_available skb zero_wnd_test (conn_list meta) 0%nat
              {| sk := None; bestsk := None; backupsk := None |} Hno) as [H1 H2].
  rewrite H1, H2. simpl. rewrite best_loop_sk. simpl.
  destruct (conn_list meta); reflexivity.
Qed.

(** C8: at the failing input, a connection whose only subflow has failed
    (tp->pf set) and a segment that no subflow has carried, the function
    returns that unavailable subflow where the claim has none. *)
Theorem C8_unavailable_subflow_is_returned :
  mptcp_tdm_is_available (ex_path 0 1 true 65535 0)
    (Some (ex_skb 1460 0 false)) false true = false /\
  tdm_get_available_subflow
    (ex_meta 0 false 0 [] None [ex_path 0 1 true 65535 0])
    (Some (ex_skb 1460 0 false)) false =
  (Some 0%nat, Some (ex_skb 1460 0 false)).
Proof. split; reflexivity. Qed.

(** C5 (as stated) fails: the DATA_FIN came in on path index 1, whose
    subflow has failed; the answer goes out on the subflow of path index 2. *)
Lemma C5_data_fin_on_other_subflow :
  answers_data_fin
    (ex_meta RCV_SHUTDOWN false 1 [] None
       [ex_path 0 1 true 65535 0; ex_path 1 2 false 65535 0])
    (Some (ex_skb 0 0 true)) = true /\
  mptcp_tdm_is_available (ex_path 0 1 true 65535 0) (Some (ex_skb 0 0 true)) false true = false /\
  mptcp_tdm_is_available (ex_path 1 2 false 65535 0) (Some (ex_skb 0 0 true)) false true = true /\
  tdm_get_available_subflow
    (ex_meta RCV_SHUTDOWN false 1 [] None
       [ex_path 0 1 true 65535 0; ex_path 1 2 false 65535 0])
    (Some (ex_skb 0 0 true)) false =
  (Some 1%nat, Some (ex_skb 0 0 true)).
Proof. repeat split; reflexivity. Qed.

(** C5 (as amended): for a DATA_FIN segment on a connection that has
    received the peer's DATA_FIN, the function returns the first subflow
    with path index dfin_path_index when that subflow is available, and
    leaves the segment as it is; when no subflow with that path index is
    available it goes on with the scan of all subflows, as for any other
    segment. *)
Theorem C5_data_fin_prefers_its_subflow meta b zero_wnd_test :
  answers_data_fin meta (Some b) = true ->
  (forall i tp,
     conn_list meta !! i = Some tp ->
     path_index tp = dfin_path_index meta ->
     mptcp_tdm_is_available tp (Some b) zero_wnd_test true = true ->
     (forall j tp', (j < i)%nat -> conn_list meta !! j = Some tp' ->
        path_index tp' = dfin_path_index meta ->
        mptcp_tdm_is_available tp' (Some b) zero_wnd_test true = false) ->
     tdm_get_available_subflow meta (Some b) zero_wnd_test = (Some i, Some b)) /\
  ((forall tp, tp ∈ conn_list meta ->
      path_index tp = dfin_path_index meta ->
      mptcp_tdm_is_available tp (Some b) zero_wnd_test true = false) ->
   tdm_get_available_subflow meta (Some b) zero_wnd_test =
   tdm_get_available_subflow (set_sk_shutdown 0 meta) (Some b) zero_wnd_test).
Proof.
  intros Hfin. split.
  - intros i tp Hi Hpi Hav Hmin. unfold tdm_get_available_subflow.
    rewrite Hfin.
    now rewrite (dfin_loop_first (Some b) zero_wnd_test _ _ 0%nat None i tp Hi Hpi Hav Hmin).
  - intros Hno. unfold tdm_get_available_subflow at 1 2. rewrite Hfin.
    replace (answers_data_fin (set_sk_shutdown 0 meta) (Some b)) with false
      by reflexivity.
    destruct (dfin_loop_none (Some b) zero_wnd_test _ _ 0%nat None Hno) as [sk1 Hsk].
    simpl conn_list. destruct (conn_list meta) as [| a rest].
    + reflexivity.
    + rewrite Hsk. reflexivity.
Qed.

Lemma C5_data_fin_prefers_its_subflow_witness :
  tdm_get_available_subflow
    (ex_meta RCV_SHUTDOWN false 2 [] None
       [ex_path 0 1 false 65535 0; ex_path 1 2 false 65535 0])
    (Some (ex_skb 0 0 true)) false =
  (Some 1%nat, Some (ex_skb 0 0 true)).
Proof.
  apply (proj1 (C5_data_fin_prefers_its_subflow
                  (ex_meta RCV_SHUTDOWN false 2 [] None
                     [ex_path 0 1 false 65535 0; ex_path 1 2 false 65535 0])
                  (ex_skb 0 0 true) false eq_refl)
           1%nat (ex_path 1 2 false 65535 0));
    [reflexivity | reflexivity | reflexivity |].
  intros j tp' Hj Hl Hpi. destruct j as [| j]; [| lia].
  injection Hl as <-. simpl in Hpi. lia.
Defined.

(** ** One scan of the subflows *)

Section Scan.

Variables (p : tdm_params) (skb : sk_buff).

Local Abbreviation R := (num_segments p).
Local Abbreviation el := (eligible p skb).
Local Abbreviation active := (path_active p skb).
Local Abbreviation idle := (path_idle p skb).
Local Abbreviation full := (path_full p skb).

Lemma count_if_nonneg f subs : 0 <= count_if f subs.
Proof. induction subs as [| a rest IH]; simpl; [lia |]. destruct (f a); lia. Qed.

Lemma count_if_le_length f subs : count_if f subs <= Z.of_nat (length subs).
Proof.
  induction subs as [| a rest IH]; simpl length; simpl count_if; [lia |].
  destruct (f a); lia.
Qed.

Lemma count_if_zero f subs :
  count_if f subs = 0 -> forall tp, tp ∈ subs -> f tp = false.
Proof.
  induction subs as [| a rest IH]; intros H tp Htp.
  - inversion Htp.
  - simpl in H. pose proof (count_if_nonneg f rest).
    apply elem_of_cons in Htp as [-> | Htp].
    + destruct (f a); [lia | reflexivity].
    + apply IH; [destruct (f a); lia | exact Htp].
Qed.

Lemma count_if_pos f subs :
  0 < count_if f subs -> exists tp, tp ∈ subs /\ f tp = true.
Proof.
  induction subs as [| a rest IH]; simpl; intros H; [lia |].
  destruct (f a) eqn:Ha.
  - exists a. split; [left | exact Ha].
  - destruct IH as (tp & Htp & Hf); [lia |]. exists tp. split; [now right | exact Hf].
Qed.

Lemma count_if_all f g subs :
  (forall tp, tp ∈ subs -> f tp = g tp) -> count_if f subs = count_if g subs.
Proof.
  induction subs as [| a rest IH]; intros H; simpl; [reflexivity |].
  rewrite (H a) by left. rewrite IH; [reflexivity |].
  intros tp Htp. apply H. now right.
Qed.

(** Where every counted subflow also satisfies [g], equal counts mean that
    [f] implies [g]. *)
Lemma count_if_eq_all f g subs :
  (forall tp, g tp = true -> f tp = true) ->
  count_if f subs = count_if g subs ->
  forall tp, tp ∈ subs -> f tp = true -> g tp = true.
Proof.
  intros Hgf. induction subs as [| a rest IH]; intros H tp Htp Hf.
  - inversion Htp.
  - assert (Hle : count_if g rest <= count_if f rest).
    { clear -Hgf. induction rest as [| b r IHr]; simpl; [lia |].
      destruct (g b) eqn:Hg; [rewrite (Hgf b Hg); lia | destruct (f b); lia]. }
    simpl in H. apply elem_of_cons in Htp as [-> | Htp].
    + rewrite Hf in H. destruct (g a); [reflexivity | lia].
    + apply IH; [| exact Htp | exact Hf].
      destruct (g a) eqn:Hg; [rewrite (Hgf a Hg) in H; lia |].
      destruct (f a); lia.
Qed.

(** Unfolding of one turn of the loop of lines 221-248. *)
Lemma scan_loop_cons a rest idx st :
  scan_loop p skb (a :: rest) idx st =
  if negb (el a) then scan_loop p skb rest (S idx) st
  else if active a
  then ({| iter := u8 (iter st + 1); full_subs := full_subs st;
           split := R - quota a; choose_sk := Some idx |}, true)
  else scan_loop p skb rest (S idx)
         {| iter := u8 (iter st + 1);
            full_subs := if R <=? quota a then u8 (full_subs st + 1)
                         else full_subs st;
            split := if quota a =? 0 then R else split st;
            choose_sk := if quota a =? 0 then Some idx else choose_sk st |}.
Proof.
  simpl. unfold path_active. fold (el a).
  destruct (el a); simpl; [| reflexivity].
  destruct ((0 <? quota a) && (quota a <? R)); [reflexivity |].
  destruct (quota a =? 0), (R <=? quota a); reflexivity.
Qed.

(** A scan that is left by [goto found] stopped at the first Active subflow,
    and what comes after that subflow was not visited. *)
Lemma scan_loop_found subs : forall idx st st',
  scan_loop p skb subs idx st = (st', true) ->
  exists k tp,
    first_at active subs k tp /\
    choose_sk st' = Some (idx + k)%nat /\
    split st' = R - quota tp /\
    scan_loop p skb (take (S k) subs) idx st = (st', true).
Proof.
  induction subs as [| a rest IH]; intros idx st st' H; [discriminate |].
  rewrite scan_loop_cons in H.
  destruct (el a) eqn:Hel; simpl in H.
  - destruct (active a) eqn:Hact.
    + injection H as <-. exists 0%nat, a.
      split; [| split; [simpl; f_equal; lia | split; [reflexivity |]]].
      * split; [reflexivity | split; [exact Hact |]]. intros j tp' Hj. lia.
      * change (take 1 (a :: rest)) with (a :: take 0 rest).
        rewrite scan_loop_cons, Hel, Hact. reflexivity.
    + apply IH in H as (k & tp & (Hk & Hf & Hmin) & Hc & Hs & Ht).
      exists (S k), tp.
      split; [| split; [rewrite Hc; f_equal; lia | split; [exact Hs |]]].
      * split; [exact Hk | split; [exact Hf |]].
        intros [| j] tp' Hj Hl; simpl in Hl;
          [congruence | apply (Hmin j); [lia | exact Hl]].
      * change (take (S (S k)) (a :: rest)) with (a :: take (S k) rest).
        rewrite scan_loop_cons, Hel, Hact. exact Ht.
  - apply IH in H as (k & tp & (Hk & Hf & Hmin) & Hc & Hs & Ht).
    exists (S k), tp.
    split; [| split; [rewrite Hc; f_equal; lia | split; [exact Hs |]]].
    + split; [exact Hk | split; [exact Hf |]].
      intros [| j] tp' Hj Hl; simpl in Hl.
      * injection Hl as <-. unfold path_active. now rewrite Hel.
      * apply (Hmin j); [lia | exact Hl].
    + change (take (S (S k)) (a :: rest)) with (a :: take (S k) rest).
      rewrite scan_loop_cons, Hel. exact Ht.
Qed.

(** A scan that runs to the end of the list met no Active subflow and has
    counted the eligible and the Full subflows. *)
Lemma scan_loop_counts subs : forall idx st st',
  counters_ok st ->
  scan_loop p skb subs idx st = (st', false) ->
  (forall tp, tp ∈ subs -> active tp = false) /\
  iter st' = u8 (iter st + count_if el subs) /\
  full_subs st' = u8 (full_subs st + count_if full subs).
Proof.
  induction subs as [| a rest IH]; intros idx st st' [Hi Hf] H.
  - injection H as <-. simpl. rewrite !Z.add_0_r, !u8_small by assumption.
    split; [| split; reflexivity]. intros tp Htp. inversion Htp.
  - rewrite scan_loop_cons in H. simpl count_if. unfold path_full at 1.
    destruct (el a) eqn:Hel; simpl in H.
    + destruct (active a) eqn:Hact; [discriminate |].
      apply IH in H as (Ha & Hit & Hfu).
      * simpl in Hit, Hfu. split; [| split].
        -- intros tp Htp. apply elem_of_cons in Htp as [-> | Htp]; auto.
        -- rewrite Hit, u8_add_l. f_equal; lia.
        -- rewrite Hfu. simpl. destruct (R <=? quota a).
           ++ rewrite u8_add_l. f_equal; lia.
           ++ f_equal; lia.
      * split; simpl; [apply u8_range |].
        destruct (R <=? quota a); [apply u8_range | exact Hf].
    + apply IH in H as (Ha & Hit & Hfu); [| now split].
      split; [| split].
      * intros tp Htp. apply elem_of_cons in Htp as [-> | Htp]; auto.
        unfold path_active. now rewrite Hel.
      * rewrite Hit. f_equal; lia.
      * rewrite Hfu. simpl. f_equal.
Qed.

Lemma scan_loop_counters_ok subs : forall idx st st' b,
  counters_ok st -> scan_loop p skb subs idx st = (st', b) -> counters_ok st'.
Proof.
  induction subs as [| a rest IH]; intros idx st st' b [Hi Hf] H.
  - injection H as <- _. now split.
  - rewrite scan_loop_cons in H.
    destruct (el a); simpl in H; [| eapply IH; [| exact H]; now split].
    destruct (active a).
    + injection H as <- _. split; simpl; [apply u8_range | exact Hf].
    + eapply IH; [| exact H]. split; simpl; [apply u8_range |].
      destruct (R <=? quota a); [apply u8_range | exact Hf].
Qed.

(** A scan that runs to the end of the list has remembered the last Idle
    subflow, with a full round as split; without an Idle subflow it leaves
    choose_sk and split as they were. *)
Lemma scan_loop_choice subs : forall idx st st',
  scan_loop p skb subs idx st = (st', false) ->
  (exists k tp, last_at idle subs k tp /\
                choose_sk st' = Some (idx + k)%nat /\ split st' = R) \/
  ((forall tp, tp ∈ subs -> idle tp = false) /\
   choose_sk st' = choose_sk st /\ split st' = split st).
Proof.
  induction subs as [| a rest IH]; intros idx st st' H.
  - injection H as <-. right. split; [| split; reflexivity].
    intros tp Htp. inversion Htp.
  - rewrite scan_loop_cons in H.
    assert (Hlift : forall k tp, last_at idle rest k tp ->
                                 last_at idle (a :: rest) (S k) tp).
    { intros k tp (Hk & Hf & Hmax). repeat split; auto.
      intros [| j] tp' Hj Hl; [lia |]. apply (Hmax j); [lia | exact Hl]. }
    destruct (el a) eqn:Hel; simpl in H.
    + destruct (active a) eqn:Hact; [discriminate |].
      apply IH in H as [(k & tp & Hlast & Hc & Hs) | (Hno & Hc & Hs)].
      * left. exists (S k), tp. split; [auto |]. split; [| exact Hs].
        rewrite Hc. f_equal. lia.
      * simpl in Hc, Hs. destruct (quota a =? 0) eqn:Hq.
        -- left. exists 0%nat, a. split; [| split; [rewrite Hc; f_equal; lia | exact Hs]].
           repeat split.
           ++ unfold path_idle. now rewrite Hel, Hq.
           ++ intros [| j] tp' Hj Hl; [lia |]. apply Hno.
              apply list_elem_of_lookup. eauto.
        -- right. split; [| now split].
           intros tp Htp. apply elem_of_cons in Htp as [-> | Htp]; auto.
           unfold path_idle. now rewrite Hel, Hq.
    + apply IH in H as [(k & tp & Hlast & Hc & Hs) | (Hno & Hc & Hs)].
      * left. exists (S k), tp. split; [auto |]. split; [| exact Hs].
        rewrite Hc. f_equal. lia.
      * right. split; [| now split].
        intros tp Htp. apply elem_of_cons in Htp as [-> | Htp]; auto.
        unfold path_idle. now rewrite Hel.
Qed.

(** Without an Active subflow the scan runs to the end of the list. *)
Lemma scan_loop_no_active subs : forall idx st,
  (forall tp, tp ∈ subs -> active tp = false) ->
  snd (scan_loop p skb subs idx st) = false.
Proof.
  induction subs as [| a rest IH]; intros idx st Hno; [reflexivity |].
  rewrite scan_loop_cons. rewrite (Hno a) by left.
  destruct (el a); simpl; apply IH; intros tp Htp; apply Hno; now right.
Qed.

(** ** The reset of the round *)

Lemma reset_quotas_elem subs tp' :
  tp' ∈ reset_quotas p skb subs ->
  exists tp, tp ∈ subs /\ tp' = if el tp then set_quota 0 tp else tp.
Proof.
  unfold reset_quotas. intros H. apply list_elem_of_fmap_1 in H as (tp & -> & Htp).
  exists tp. split; [exact Htp | reflexivity].
Qed.

Lemma reset_quotas_lookup subs i :
  reset_quotas p skb subs !! i =
  (fun tp => if el tp then set_quota 0 tp else tp) <$> subs !! i.
Proof. unfold reset_quotas. apply list_lookup_fmap. Qed.

Lemma reset_quotas_length subs :
  length (reset_quotas p skb subs) = length subs.
Proof. unfold reset_quotas. apply length_fmap. Qed.

Lemma eligible_reset tp :
  el (if el tp then set_quota 0 tp else tp) = el tp.
Proof. destruct (el tp) eqn:H; [| exact H]. rewrite eligible_set_quota. exact H. Qed.

Lemma count_eligible_reset subs :
  count_if el (reset_quotas p skb subs) = count_if el subs.
Proof.
  induction subs as [| a rest IH]; [reflexivity |].
  change (reset_quotas p skb (a :: rest))
    with ((if el a then set_quota 0 a else a) :: reset_quotas p skb rest).
  simpl count_if. now rewrite eligible_reset, IH.
Qed.

Lemma count_if_none f subs :
  (forall tp, tp ∈ subs -> f tp = false) -> count_if f subs = 0.
Proof.
  induction subs as [| a rest IH]; intros H; [reflexivity |].
  simpl. rewrite (H a) by left. rewrite IH; [reflexivity |].
  intros tp Htp. apply H. now right.
Qed.

Section PositiveRound.

Hypothesis HR : 0 < R.

(** After the reset an eligible subflow is Idle: not Active, not Full. *)
Lemma reset_quotas_state subs tp' :
  tp' ∈ reset_quotas p skb subs ->
  active tp' = false /\ full tp' = false /\ idle tp' = el tp'.
Proof.
  intros H. apply reset_quotas_elem in H as (tp & _ & ->).
  unfold path_active, path_full, path_idle. rewrite eligible_reset.
  destruct (el tp) eqn:Hel; simpl; [| auto].
  destruct (Z.leb_spec R 0); [lia | auto].
Qed.

(** The scan that follows a reset: it runs to the end, counts no Full
    subflow, and selects an Idle subflow when one is eligible. *)
Lemma scan_after_reset subs st1 :
  counters_ok st1 ->
  exists st2,
    scan_loop p skb (reset_quotas p skb subs) 0 st1 = (st2, false) /\
    iter st2 = u8 (iter st1 + count_if el subs) /\
    full_subs st2 = full_subs st1 /\
    (0 < count_if el subs ->
     exists k tp, last_at idle (reset_quotas p skb subs) k tp /\
                  choose_sk st2 = Some k /\ split st2 = R).
Proof.
  intros Hok.
  assert (Hno : forall tp, tp ∈ reset_quotas p skb subs -> active tp = false)
    by (intros tp Htp; now apply reset_quotas_state in Htp).
  pose proof (scan_loop_no_active (reset_quotas p skb subs) 0 st1 Hno) as Hsnd.
  destruct (scan_loop p skb (reset_quotas p skb subs) 0 st1) as [st2 b] eqn:Hscan.
  simpl in Hsnd. subst b. exists st2. split; [reflexivity |].
  destruct (scan_loop_counts _ _ _ _ Hok Hscan) as (_ & Hit & Hfu).
  rewrite count_eligible_reset in Hit.
  rewrite count_if_none in Hfu
    by (intros tp Htp; now apply reset_quotas_state in Htp).
  rewrite Z.add_0_r, u8_small in Hfu by apply Hok.
  split; [exact Hit | split; [exact Hfu |]].
  intros Hpos.
  destruct (scan_loop_choice _ _ _ _ Hscan) as [(k & tp & Hl & Hc & Hs) | (Hnone & _)].
  - exists k, tp. auto.
  - rewrite <- count_eligible_reset in Hpos.
    apply count_if_pos in Hpos as (tp & Htp & Hel).
    pose proof (Hnone tp Htp) as Hidle.
    apply reset_quotas_state in Htp as (_ & _ & Heq). congruence.
Qed.

(** The counters after a first scan that ran to the end. *)
Lemma first_scan_counts subs st1 :
  scan_loop p skb subs 0 (scan_init p) = (st1, false) ->
  counters_ok st1 /\
  iter st1 = u8 (count_if el subs) /\
  full_subs st1 = u8 (count_if full subs).
Proof.
  intros H.
  assert (Hok : counters_ok (scan_init p)) by (split; simpl; lia).
  split; [exact (scan_loop_counters_ok _ _ _ _ _ Hok H) |].
  destruct (scan_loop_counts _ _ _ _ Hok H) as (_ & Hit & Hfu). auto.
Qed.

(** The round cannot be exhausted twice in a call: after the reset the
    test of line 253 fails. *)
Lemma second_scan_not_exhausted subs st1 st2 :
  scan_loop p skb subs 0 (scan_init p) = (st1, false) ->
  round_exhausted st1 = true ->
  scan_loop p skb (reset_quotas p skb subs) 0 st1 = (st2, false) ->
  round_exhausted st2 = false /\
  exists k tp, last_at idle (reset_quotas p skb subs) k tp /\
               choose_sk st2 = Some k /\ split st2 = R.
Proof.
  intros H1 Hex H2.
  destruct (first_scan_counts _ _ H1) as (Hok & Hit & Hfu).
  destruct (scan_after_reset subs st1 Hok) as (st2' & H2' & Hit2 & Hfu2 & Hsel).
  rewrite H2 in H2'. injection H2' as <-.
  unfold round_exhausted in *.
  apply andb_true_iff in Hex as [Hnz Heq].
  apply negb_true_iff, Z.eqb_neq in Hnz. apply Z.eqb_eq in Heq.
  pose proof (count_if_nonneg el subs) as Hn.
  split.
  - apply andb_false_iff. right. apply Z.eqb_neq.
    rewrite Hit2, Hfu2, <- Heq, Hit, u8_add_l. rewrite Hit in Hnz.
    unfold u8 in *. intros Habs.
    pose proof (Z.div_mod (count_if el subs + count_if el subs) (2 ^ 8)).
    pose proof (Z.div_mod (count_if el subs) (2 ^ 8)).
    pose proof (Z.mod_pos_bound (count_if el subs) (2 ^ 8)).
    change (2 ^ 8) with 256 in *. lia.
  - apply Hsel. rewrite Hit in Hnz. unfold u8 in Hnz.
    assert (count_if el subs <> 0) by (intros E; rewrite E in Hnz; now apply Hnz).
    lia.
Qed.

Lemma retry_S fuel subs st :
  retry (S fuel) p skb subs st =
  let '(st', b) := scan_loop p skb subs 0 st in
  if b then Some (subs, st')
  else if round_exhausted st'
  then retry fuel p skb (reset_quotas p skb subs) st'
  else Some (subs, st').
Proof. reflexivity. Qed.

(** What two scans find. *)
Lemma retry_two subs :
  exists subs1 st,
    retry 2 p skb subs (scan_init p) = Some (subs1, st) /\
    ((subs1 = subs /\
      exists k tp, first_at active subs k tp /\
                   choose_sk st = Some k /\ split st = R - quota tp /\
                   scan_loop p skb (take (S k) subs) 0 (scan_init p) =
                   scan_loop p skb subs 0 (scan_init p)) \/
     (subs1 = subs /\
      (forall tp, tp ∈ subs -> active tp = false) /\
      ((exists k tp, last_at idle subs k tp /\
                     choose_sk st = Some k /\ split st = R) \/
       ((forall tp, tp ∈ subs -> idle tp = false) /\ choose_sk st = None))) \/
     (subs1 = reset_quotas p skb subs /\
      (exists st1, scan_loop p skb subs 0 (scan_init p) = (st1, false) /\
                   round_exhausted st1 = true) /\
      exists k tp, last_at idle subs1 k tp /\
                   choose_sk st = Some k /\ split st = R)).
Proof.
  rewrite retry_S.
  destruct (scan_loop p skb subs 0 (scan_init p)) as [st1 b] eqn:H1.
  destruct b.
  - exists subs, st1. split; [reflexivity |]. left. split; [reflexivity |].
    destruct (scan_loop_found _ _ _ _ H1) as (k & tp & Hf & Hc & Hs & Ht).
    exists k, tp. rewrite Ht. auto.
  - destruct (round_exhausted st1) eqn:Hex.
    + rewrite retry_S.
      destruct (first_scan_counts _ _ H1) as (Hok & _).
      destruct (scan_after_reset subs st1 Hok) as (st2 & H2 & _).
      rewrite H2.
      destruct (second_scan_not_exhausted _ _ _ H1 Hex H2) as (-> & Hsel).
      exists (reset_quotas p skb subs), st2. split; [reflexivity |].
      right. right. split; [reflexivity |]. split; [| exact Hsel]. eauto.
    + exists subs, st1. split; [reflexivity |]. right. left.
      split; [reflexivity |].
      assert (Hok : counters_ok (scan_init p)) by (split; simpl; lia).
      destruct (scan_loop_counts _ _ _ _ Hok H1) as (Hna & _).
      split; [exact Hna |].
      destruct (scan_loop_choice _ _ _ _ H1) as [(k & tp & Hl & Hc & Hs) | (Hno & Hc & _)].
      * left. exists k, tp. auto.
      * right. split; [exact Hno | exact Hc].
Qed.

End PositiveRound.

(** More fuel does not change a result. *)
Lemma retry_mono fuel : forall subs st x,
  retry fuel p skb subs st = Some x -> retry (S fuel) p skb subs st = Some x.
Proof.
  induction fuel as [| f IH]; intros subs st x H; [discriminate |].
  rewrite retry_S in H. rewrite retry_S.
  destruct (scan_loop p skb subs 0 st) as [st' b].
  destruct b; [exact H |].
  destruct (round_exhausted st'); [| exact H].
  apply IH. exact H.
Qed.

Lemma retry_mono_le fuel fuel' subs st x :
  (fuel <= fuel')%nat ->
  retry fuel p skb subs st = Some x -> retry fuel' p skb subs st = Some x.
Proof.
  intros Hle H. induction Hle as [| m _ IH]; [exact H |].
  apply retry_mono. exact IH.
Qed.

(** With a positive round size, whatever [retry] returns is what two scans
    return. *)
Lemma retry_some_two fuel subs x :
  0 < R ->
  retry fuel p skb subs (scan_init p) = Some x ->
  retry 2 p skb subs (scan_init p) = Some x.
Proof.
  intros HR H.
  destruct (retry_two HR subs) as (subs1 & st & H2 & _).
  destruct (Nat.le_ge_cases fuel 2) as [Hle | Hge].
  - exact (retry_mono_le _ _ _ _ _ Hle H).
  - rewrite (retry_mono_le _ _ _ _ _ Hge H2) in H. now rewrite H2.
Qed.

(** choose_sk always points into the list of subflows: the lookup at the
    found label cannot fail. *)
Lemma scan_loop_choose_sk subs : forall idx st st' b i,
  scan_loop p skb subs idx st = (st', b) ->
  choose_sk st' = Some i ->
  choose_sk st = Some i \/ (idx <= i < idx + length subs)%nat.
Proof.
  induction subs as [| a rest IH]; intros idx st st' b i H Hc.
  - injection H as <- _. now left.
  - rewrite scan_loop_cons in H. simpl length.
    destruct (el a); simpl in H.
    + destruct (active a).
      * injection H as <- _. simpl in Hc. injection Hc as <-. right. lia.
      * destruct (IH _ _ _ _ _ H Hc) as [Hold | Hin]; [| right; lia].
        simpl in Hold. destruct (quota a =? 0); [| now left].
        injection Hold as <-. right. lia.
    + destruct (IH _ _ _ _ _ H Hc) as [Hold | Hin]; [now left | right; lia].
Qed.

Lemma retry_choose_sk fuel : forall subs st subs1 st1,
  (forall i, choose_sk st = Some i -> (i < length subs)%nat) ->
  retry fuel p skb subs st = Some (subs1, st1) ->
  forall i, choose_sk st1 = Some i -> is_Some (subs1 !! i).
Proof.
  induction fuel as [| f IH]; intros subs st subs1 st1 Hst H i Hc;
    [discriminate |].
  rewrite retry_S in H.
  destruct (scan_loop p skb subs 0 st) as [st' b] eqn:Hscan.
  assert (Hst' : forall j, choose_sk st' = Some j -> (j < length subs)%nat).
  { intros j Hj.
    destruct (scan_loop_choose_sk _ _ _ _ _ _ Hscan Hj) as [Hold | Hin];
      [now apply Hst | lia]. }
  destruct b; [| destruct (round_exhausted st')].
  - injection H as <- <-. apply lookup_lt_is_Some. now apply Hst'.
  - apply (IH _ _ _ _ ltac:(rewrite reset_quotas_length; exact Hst') H i Hc).
  - injection H as <- <-. apply lookup_lt_is_Some. now apply Hst'.
Qed.

(** With fewer than 256 subflows the counters do not wrap: the test of line
    253 holds only when the round is exhausted. *)
Lemma exhausted_all_full subs st1 :
  (length subs < 256)%nat ->
  scan_loop p skb subs 0 (scan_init p) = (st1, false) ->
  round_exhausted st1 = true ->
  all_full p skb subs.
Proof.
  intros Hlen H1 Hex.
  assert (Hok : counters_ok (scan_init p)) by (split; simpl; lia).
  destruct (scan_loop_counts _ _ _ _ Hok H1) as (_ & Hit & Hfu).
  simpl in Hit, Hfu.
  pose proof (count_if_nonneg el subs). pose proof (count_if_le_length el subs).
  pose proof (count_if_nonneg full subs). pose proof (count_if_le_length full subs).
  rewrite u8_small in Hit, Hfu by lia.
  unfold round_exhausted in Hex. apply andb_true_iff in Hex as [Hnz Heq].
  apply negb_true_iff, Z.eqb_neq in Hnz. apply Z.eqb_eq in Heq.
  split.
  - apply count_if_pos. lia.
  - intros tp Htp Hel.
    assert (Hfull : full tp = true).
    { apply (count_if_eq_all el full subs); [| lia | exact Htp | exact Hel].
      intros tp0 Hfl. unfold path_full in Hfl. now apply andb_true_iff in Hfl as [? _]. }
    unfold path_full in Hfull. apply andb_true_iff in Hfull as [_ Hq].
    now apply Z.leb_le.
Qed.

(** A second reset changes nothing. *)
Lemma reset_quotas_idemp subs :
  reset_quotas p skb (reset_quotas p skb subs) = reset_quotas p skb subs.
Proof.
  induction subs as [| a rest IH]; [reflexivity |].
  change (reset_quotas p skb (a :: rest))
    with ((if el a then set_quota 0 a else a) :: reset_quotas p skb rest).
  change (reset_quotas p skb ((if el a then set_quota 0 a else a)
                                :: reset_quotas p skb rest))
    with ((if el (if el a then set_quota 0 a else a)
           then set_quota 0 (if el a then set_quota 0 a else a)
           else (if el a then set_quota 0 a else a))
            :: reset_quotas p skb (reset_quotas p skb rest)).
  rewrite IH, eligible_reset. now destruct (el a).
Qed.

Lemma retry_after_reset fuel : forall subs st subs1 st1,
  retry fuel p skb (reset_quotas p skb subs) st = Some (subs1, st1) ->
  subs1 = reset_quotas p skb subs.
Proof.
  induction fuel as [| f IH]; intros subs st subs1 st1 H; [discriminate |].
  rewrite retry_S in H.
  destruct (scan_loop p skb (reset_quotas p skb subs) 0 st) as [st' b].
  destruct b; [now injection H as <- _ |].
  destruct (round_exhausted st'); [| now injection H as <- _].
  rewrite reset_quotas_idemp in H. exact (IH _ _ _ _ H).
Qed.

(** The list of subflows at the found label: the one of the call, or the
    one after the reset of an exhausted round. *)
Lemma retry_subs fuel subs0 subs st :
  (length subs0 < 256)%nat ->
  retry fuel p skb subs0 (scan_init p) = Some (subs, st) ->
  subs = subs0 \/ (subs = reset_quotas p skb subs0 /\ all_full p skb subs0).
Proof.
  intros Hlen H. destruct fuel as [| f]; [discriminate |].
  rewrite retry_S in H.
  destruct (scan_loop p skb subs0 0 (scan_init p)) as [st1 b] eqn:H1.
  destruct b; [left; now injection H as <- _ |].
  destruct (round_exhausted st1) eqn:Hex; [| left; now injection H as <- _].
  right. split; [exact (retry_after_reset _ _ _ _ _ H) |].
  exact (exhausted_all_full _ _ Hlen H1 Hex).
Qed.

End Scan.

(** ** The scans, for every round size *)

(** A list with an element that satisfies [f] counts at least one. *)
Lemma count_if_elem f subs tp :
  tp ∈ subs -> f tp = true -> 0 < count_if f subs.
Proof.
  induction subs as [| a rest IH]; intros Hin Hf; [inversion Hin |].
  simpl. pose proof (count_if_nonneg f rest).
  apply elem_of_cons in Hin as [<- | Hin]; [rewrite Hf; lia |].
  specialize (IH Hin Hf). destruct (f a); lia.
Qed.




(** With fewer than 256 subflows the test of line 253 holds whenever the
    round is exhausted, and the scans then go on with the reset list. *)
Lemma all_full_exhausted p b subs :
  (length subs < 256)%nat -> all_full p b subs ->
  exists st1, scan_loop p b subs 0 (scan_init p) = (st1, false) /\
              round_exhausted st1 = true.
Proof.
  intros Hlen [(tp0 & Hin0 & Hel0) Hfull].
  assert (Hna : forall tp, tp ∈ subs -> path_active p b tp = false).
  { intros tp Htp. unfold path_active.
    destruct (eligible p b tp) eqn:He; [| reflexivity].
    specialize (Hfull tp Htp He). simpl.
    destruct (Z.ltb_spec (quota tp) (num_segments p)); [lia |].
    now rewrite andb_false_r. }
  pose proof (scan_loop_no_active p b _ 0%nat (scan_init p) Hna) as Hsnd.
  destruct (scan_loop p b subs 0 (scan_init p)) as [st1 g] eqn:H1.
  simpl in Hsnd. subst g. exists st1. split; [reflexivity |].
  assert (Hok : counters_ok (scan_init p)) by (split; simpl; lia).
  destruct (scan_loop_counts _ _ _ _ _ _ Hok H1) as (_ & Hit & Hfu).
  simpl in Hit, Hfu.
  assert (Hcount : count_if (path_full p b) subs = count_if (eligible p b) subs).
  { apply count_if_all. intros tp Htp. unfold path_full.
    destruct (eligible p b tp) eqn:He; [| reflexivity].
    specialize (Hfull tp Htp He). simpl. now apply Z.leb_le. }
  pose proof (count_if_elem _ _ _ Hin0 Hel0).
  pose proof (count_if_le_length (eligible p b) subs).
  rewrite Hcount in Hfu. rewrite u8_small in Hit, Hfu by lia.
  unfold round_exhausted. rewrite Hit, Hfu, Z.eqb_refl, andb_true_r.
  apply negb_true_iff, Z.eqb_neq. lia.
Qed.

Lemma retry_all_full fuel p b subs subs1 st :
  (length subs < 256)%nat -> all_full p b subs ->
  retry fuel p b subs (scan_init p) = Some (subs1, st) ->
  subs1 = reset_quotas p b subs.
Proof.
  intros Hlen Hfull H.
  destruct (all_full_exhausted p b subs Hlen Hfull) as (st1 & H1 & Hex).
  destruct fuel as [| f]; [discriminate |].
  rewrite retry_S, H1, Hex in H. exact (retry_after_reset _ _ _ _ _ _ _ H).
Qed.

(** ** The end of mptcp_tdm_next_segment *)

Lemma found_inv skb meta subsk subs st r :
  found skb meta subsk subs st = Returns r ->
  r = no_decision meta subsk subs \/
  exists i tp,
    choose_sk st = Some i /\ subs !! i = Some tp /\
    mptcp_tdm_is_available tp (Some skb) false true = true /\
    (current_mss tp <? skb_len skb) && (current_mss tp =? 0) = false /\
    r = {| ret_skb := Some skb; out_reinject := 0; out_subsk := Some i;
           out_limit := u32 (split st * current_mss tp);
           out_meta :=
             set_conn_list
               (alter (set_quota
                         (to_int (quota tp + quota_increment skb (current_mss tp))))
                      i subs) meta |}.
Proof.
  unfold found.
  destruct (choose_sk st) as [i |]; [| intros [= <-]; now left].
  destruct (subs !! i) as [tp |] eqn:Hi; [| intros [= <-]; now left].
  destruct (mptcp_tdm_is_available tp (Some skb) false true) eqn:Hav; simpl;
    [| intros [= <-]; now left].
  destruct ((current_mss tp <? skb_len skb) && (current_mss tp =? 0)) eqn:Hdiv;
    [discriminate |].
  intros [= <-]. right. exists i, tp. repeat split; auto.
Qed.

Lemma found_reinject skb meta subsk subs st r :
  found skb meta subsk subs st = Returns r -> out_reinject r = 0.
Proof.
  intros H. apply found_inv in H as [-> | (i & tp & _ & _ & _ & _ & ->)];
    reflexivity.
Qed.

Lemma found_not_out_of_fuel skb meta subsk subs st :
  found skb meta subsk subs st <> OutOfFuel.
Proof.
  unfold found. destruct (choose_sk st) as [i |]; [| discriminate].
  destruct (subs !! i) as [tp |]; [| discriminate].
  destruct (negb _); [discriminate |].
  destruct (_ && _); discriminate.
Qed.

(** Without a subflow of mss 0 the division of line 287 is defined. *)
Lemma found_returns skb meta subsk subs st :
  (forall tp, tp ∈ subs -> current_mss tp <> 0) ->
  exists r, found skb meta subsk subs st = Returns r.
Proof.
  intros Hmss. unfold found. destruct (choose_sk st) as [i |]; [| eauto].
  destruct (subs !! i) as [tp |] eqn:Hi; [| eauto].
  destruct (negb _); [eauto |].
  assert (Hne : current_mss tp <> 0)
    by (apply Hmss, list_elem_of_lookup; eauto).
  apply Z.eqb_neq in Hne. rewrite Hne, andb_false_r. eauto.
Qed.

(** ** The whole call *)

Lemma next_segment_quota_branch fuel p meta subsk b :
  __mptcp_tdm_next_segment meta = (Some b, 0) ->
  mptcp_tdm_next_segment fuel p meta subsk =
  match retry fuel p b (conn_list meta) (scan_init p) with
  | None => OutOfFuel
  | Some (subs, st) => found b meta subsk subs st
  end.
Proof. intros H. unfold mptcp_tdm_next_segment. rewrite H. reflexivity. Qed.

(** A call returns outside the quota branch, with the subflows as they
    were, or through the quota branch. *)
Lemma next_segment_branches fuel p meta subsk r :
  mptcp_tdm_next_segment fuel p meta subsk = Returns r ->
  ((forall b, __mptcp_tdm_next_segment meta <> (Some b, 0)) /\
   conn_list (out_meta r) = conn_list meta /\
   (ret_skb r = None \/ out_reinject r = 1)) \/
  (exists b subs st,
     __mptcp_tdm_next_segment meta = (Some b, 0) /\
     retry fuel p b (conn_list meta) (scan_init p) = Some (subs, st) /\
     found b meta subsk subs st = Returns r).
Proof.
  unfold mptcp_tdm_next_segment.
  destruct (__mptcp_tdm_next_segment meta) as [[b |] re] eqn:Hnext.
  - destruct (Z.eqb_spec re 0) as [-> | Hre]; simpl.
    + destruct (retry fuel p b (conn_list meta) (scan_init p)) as [[subs st] |] eqn:Hretry;
        [| discriminate].
      intros H. right. exists b, subs, st. auto.
    + assert (re = 1) as ->.
      { unfold __mptcp_tdm_next_segment in Hnext.
        destruct (infinite_mapping_snd meta || send_infinite_mapping meta);
          [injection Hnext as _ <-; lia |].
        destruct (reinject_queue meta); injection Hnext as _ <-; lia. }
      destruct (tdm_get_available_subflow meta (Some b) false) as [sel skb'].
      destruct sel; intros [= <-]; simpl; left;
        (split; [discriminate | split; [now destruct skb' | now right]]).
  - intros [= <-]. left. simpl. split; [discriminate | auto].
Qed.

(** ** The claims on mptcp_tdm_next_segment *)

(** C2 (as amended): with a positive round size the call is over after at
    most two scans: for every bound of at least two scans it ends in the same
    way, and not for lack of scans; it returns, unless it divides by an mss
    of 0. When the first scan finds the round exhausted, the scan after the
    reset runs to its end, finds the round not exhausted, and has selected an
    eligible subflow whose quota is 0. *)
Theorem C2_two_scans_suffice p meta subsk :
  0 < num_segments p ->
  (exists o, o <> OutOfFuel /\
     (forall fuel, (2 <= fuel)%nat ->
        mptcp_tdm_next_segment fuel p meta subsk = o) /\
     ((forall tp, tp ∈ conn_list meta -> current_mss tp <> 0) ->
      exists r, o = Returns r)) /\
  (forall b st1,
     scan_loop p b (conn_list meta) 0 (scan_init p) = (st1, false) ->
     round_exhausted st1 = true ->
     exists st2 k tp,
       scan_loop p b (reset_quotas p b (conn_list meta)) 0 st1 = (st2, false) /\
       round_exhausted st2 = false /\
       retry 2 p b (conn_list meta) (scan_init p) =
         Some (reset_quotas p b (conn_list meta), st2) /\
       choose_sk st2 = Some k /\
       reset_quotas p b (conn_list meta) !! k = Some tp /\
       eligible p b tp = true /\ quota tp = 0).
Proof.
  intros HR. split.
  - exists (mptcp_tdm_next_segment 2 p meta subsk). split; [| split].
    + unfold mptcp_tdm_next_segment.
      destruct (__mptcp_tdm_next_segment meta) as [[b |] re]; [| discriminate].
      destruct (negb (re =? 0)).
      * destruct (tdm_get_available_subflow meta (Some b) false) as [[i |] skb'];
          discriminate.
      * destruct (retry_two p b HR (conn_list meta)) as (subs1 & st & -> & _).
        apply found_not_out_of_fuel.
    + intros fuel Hfuel. unfold mptcp_tdm_next_segment.
      destruct (__mptcp_tdm_next_segment meta) as [[b |] re]; [| reflexivity].
      destruct (negb (re =? 0)); [reflexivity |].
      destruct (retry_two p b HR (conn_list meta)) as (subs1 & st & H2 & _).
      now rewrite (retry_mono_le p b _ _ _ _ _ Hfuel H2), H2.
    + intros Hmss. unfold mptcp_tdm_next_segment.
      destruct (__mptcp_tdm_next_segment meta) as [[b |] re]; [| eauto].
      destruct (negb (re =? 0)).
      * destruct (tdm_get_available_subflow meta (Some b) false) as [[i |] skb'];
          eauto.
      * destruct (retry_two p b HR (conn_list meta))
          as (subs1 & st & H2 & Hcases).
        rewrite H2. apply found_returns.
        assert (Hsubs : subs1 = conn_list meta \/
                        subs1 = reset_quotas p b (conn_list meta))
          by (destruct Hcases as [(-> & _) | [(-> & _) | (-> & _)]]; auto).
        destruct Hsubs as [-> | ->]; [exact Hmss |].
        intros tp Htp. apply reset_quotas_elem in Htp as (tp0 & Htp0 & ->).
        specialize (Hmss tp0 Htp0). now destruct (eligible p b tp0).
  - intros b st1 H1 Hex.
    destruct (first_scan_counts p b _ _ H1) as (Hok & _).
    destruct (scan_after_reset p b HR (conn_list meta) st1 Hok) as (st2 & H2 & _).
    destruct (second_scan_not_exhausted p b HR _ _ _ H1 Hex H2)
      as (Hex2 & k & tp & (Hk & Hidle & _) & Hc & _).
    exists st2, k, tp. unfold path_idle in Hidle.
    apply andb_true_iff in Hidle as [Hel Hq]. apply Z.eqb_eq in Hq.
    repeat split; auto.
    rewrite retry_S, H1, Hex, retry_S, H2, Hex2. reflexivity.
Qed.

Lemma C2_two_scans_suffice_witness :
  (exists o, o <> OutOfFuel /\
     (forall fuel, (2 <= fuel)%nat ->
        mptcp_tdm_next_segment fuel default_params
          (ex_meta 0 false 0 [] (Some (ex_skb 1460 0 false))
             [ex_path 0 1 false 65535 10000; ex_path 1 2 false 65535 10001])
          None = o) /\
     ((forall tp,
         tp ∈ conn_list
                (ex_meta 0 false 0 [] (Some (ex_skb 1460 0 false))
                   [ex_path 0 1 false 65535 10000;
                    ex_path 1 2 false 65535 10001]) ->
         current_mss tp <> 0) ->
      exists r, o = Returns r)) /\
  (exists st2 k tp,
     scan_loop default_params (ex_skb 1460 0 false)
       (reset_quotas default_params (ex_skb 1460 0 false)
          [ex_path 0 1 false 65535 10000; ex_path 1 2 false 65535 10001])
       0 {| iter := 2; full_subs := 2; split := 10000; choose_sk := None |} =
       (st2, false) /\
     round_exhausted st2 = false /\
     retry 2 default_params (ex_skb 1460 0 false)
       [ex_path 0 1 false 65535 10000; ex_path 1 2 false 65535 10001]
       (scan_init default_params) =
       Some (reset_quotas default_params (ex_skb 1460 0 false)
               [ex_path 0 1 false 65535 10000; ex_path 1 2 false 65535 10001],
             st2) /\
     choose_sk st2 = Some k /\
     reset_quotas default_params (ex_skb 1460 0 false)
       [ex_path 0 1 false 65535 10000; ex_path 1 2 false 65535 10001] !! k =
       Some tp /\
     eligible default_params (ex_skb 1460 0 false) tp = true /\ quota tp = 0).
Proof.
  destruct (C2_two_scans_suffice default_params
              (ex_meta 0 false 0 [] (Some (ex_skb 1460 0 false))
                 [ex_path 0 1 false 65535 10000; ex_path 1 2 false 65535 10001])
              None ltac:(simpl; lia)) as [Hends Hsecond].
  split; [exact Hends |].
  exact (Hsecond (ex_skb 1460 0 false)
           {| iter := 2; full_subs := 2; split := 10000; choose_sk := None |}
           eq_refl eq_refl).
Defined.

(** C2 (as stated) fails: a round size of 0 is accepted like any int, and
    with it and one Idle subflow the first scan finds the round exhausted,
    and so does the scan after the reset, which sends control back to the
    retry label a second time: neither two nor three scans end the call,
    which returns at the 256th scan, when the unsigned char iter is 0. *)
Lemma C2_zero_round_size_scans_again :
  param_set_num_segments 0 default_params =
    Some {| num_segments := 0; cwnd_limited := true |} /\
  (exists st1 st2,
     scan_loop {| num_segments := 0; cwnd_limited := true |}
       (ex_skb 1460 0 false) [ex_path 0 1 false 65535 0] 0
       (scan_init {| num_segments := 0; cwnd_limited := true |}) =
       (st1, false) /\
     round_exhausted st1 = true /\
     scan_loop {| num_segments := 0; cwnd_limited := true |}
       (ex_skb 1460 0 false)
       (reset_quotas {| num_segments := 0; cwnd_limited := true |}
          (ex_skb 1460 0 false) [ex_path 0 1 false 65535 0]) 0 st1 =
       (st2, false) /\
     round_exhausted st2 = true) /\
  mptcp_tdm_next_segment 2 {| num_segments := 0; cwnd_limited := true |}
    (ex_meta 0 false 0 [] (Some (ex_skb 1460 0 false))
       [ex_path 0 1 false 65535 0]) None = OutOfFuel /\
  mptcp_tdm_next_segment 3 {| num_segments := 0; cwnd_limited := true |}
    (ex_meta 0 false 0 [] (Some (ex_skb 1460 0 false))
       [ex_path 0 1 false 65535 0]) None = OutOfFuel /\
  exists r,
    mptcp_tdm_next_segment 256 {| num_segments := 0; cwnd_limited := true |}
      (ex_meta 0 false 0 [] (Some (ex_skb 1460 0 false))
         [ex_path 0 1 false 65535 0]) None = Returns r.
Proof.
  split; [reflexivity |]. split.
  - eexists _, _. split; [reflexivity |]. split; [reflexivity |].
    split; reflexivity.
  - split; [reflexivity |]. split; [reflexivity |].
    eexists. vm_compute. reflexivity.
Qed.

(** C3 (as amended): on a connection of fewer than 256 subflows a call
    changes nothing of a subflow but its quota, in two steps. The reset of an
    exhausted round (some subflow eligible, every eligible subflow with quota
    >= num_segments) sets the quota of every eligible subflow to 0, and
    nothing else sets a quota to 0: the quota q0 the selection sees is 0 by
    that reset, or the quota before the call. The call that returns a
    segment of the send queue on a subflow makes the quota of that subflow
    the C int value of q0 plus DIV_ROUND_UP(len, mss_now) when len > mss_now
    and plus 1 otherwise; every other subflow, and every subflow of a call
    that selects nothing or reinjects, keeps q0. Where the sum stays inside
    the C types the quota of the selected subflow grows by ceil(len /
    mss_now), respectively by 1. So a quota decreases only by the reset or by
    the wrap-around of the update. *)
Theorem C3_quota_changes fuel p meta subsk r :
  (length (conn_list meta) < 256)%nat ->
  mptcp_tdm_next_segment fuel p meta subsk = Returns r ->
  length (conn_list (out_meta r)) = length (conn_list meta) /\
  forall i tp, conn_list meta !! i = Some tp ->
  exists q0 q',
    conn_list (out_meta r) !! i = Some (set_quota q' tp) /\
    (q0 = quota tp \/
     (q0 = 0 /\
      exists b, __mptcp_tdm_next_segment meta = (Some b, 0) /\
                all_full p b (conn_list meta) /\ eligible p b tp = true)) /\
    (forall b, __mptcp_tdm_next_segment meta = (Some b, 0) ->
               all_full p b (conn_list meta) -> eligible p b tp = true ->
               q0 = 0) /\
    ((exists b,
        out_reinject r = 0 /\ ret_skb r = Some b /\ out_subsk r = Some i /\
        q' = to_int (q0 + quota_increment b (current_mss tp)) /\
        (no_wrap q0 b (current_mss tp) ->
         q' = q0 + spec_increment b (current_mss tp) /\ q0 < q')) \/
     (~ (out_reinject r = 0 /\ ret_skb r <> None /\ out_subsk r = Some i) /\
      q' = q0)) /\
    (q' < quota tp ->
     (exists b, __mptcp_tdm_next_segment meta = (Some b, 0) /\
                all_full p b (conn_list meta) /\ eligible p b tp = true) \/
     (exists b, ret_skb r = Some b /\ out_subsk r = Some i /\
                ~ no_wrap (quota tp) b (current_mss tp))).
Proof.
  intros Hlen Hret.
  destruct (next_segment_branches _ _ _ _ _ Hret)
    as [(Hno & Hm & Hout) | (b & subs & st & Hnext & Hretry & Hfound)].
  - rewrite Hm. split; [reflexivity |]. intros i tp Hi.
    exists (quota tp), (quota tp). rewrite set_quota_same.
    split; [exact Hi |]. split; [now left |].
    split; [intros b Hb; now destruct (Hno b) |].
    split; [| lia]. right. split; [| reflexivity].
    intros (Hre & Hskb & _). destruct Hout as [Hnone | Hone]; [auto | lia].
  - (* the subflows at the found label *)
    assert (Hsubs : length subs = length (conn_list meta) /\
              forall i tp, conn_list meta !! i = Some tp ->
              exists q0, subs !! i = Some (set_quota q0 tp) /\
                (q0 = quota tp \/
                 (q0 = 0 /\ all_full p b (conn_list meta) /\
                  eligible p b tp = true)) /\
                (all_full p b (conn_list meta) -> eligible p b tp = true ->
                 q0 = 0)).
    { destruct (retry_subs _ _ _ _ _ _ Hlen Hretry) as [-> | (-> & Hfull)].
      - split; [reflexivity |]. intros i tp Hi. exists (quota tp).
        rewrite set_quota_same. split; [exact Hi |]. split; [now left |].
        intros Hfull Hel.
        pose proof (retry_all_full _ _ _ _ _ _ Hlen Hfull Hretry) as Heq.
        apply (f_equal (fun l => l !! i)) in Heq.
        rewrite reset_quotas_lookup, Hi in Heq. simpl in Heq.
        rewrite Hel in Heq. injection Heq as Heq.
        now rewrite Heq.
      - split; [apply reset_quotas_length |]. intros i tp Hi.
        rewrite reset_quotas_lookup, Hi. simpl.
        destruct (eligible p b tp) eqn:Hel.
        + exists 0. split; [reflexivity |]. split; [right |]; auto.
        + exists (quota tp). rewrite set_quota_same.
          split; [reflexivity |]. split; [now left | discriminate]. }
    destruct Hsubs as (Hlen1 & Hsubs).
    assert (Hb : forall b0, __mptcp_tdm_next_segment meta = (Some b0, 0) ->
                            b0 = b)
      by (intros b0 Hb0; rewrite Hnext in Hb0; now injection Hb0).
    assert (Hreset : forall tp q0,
              (q0 = quota tp \/
               (q0 = 0 /\ all_full p b (conn_list meta) /\
                eligible p b tp = true)) ->
              (q0 = quota tp \/
               (q0 = 0 /\
                exists b0, __mptcp_tdm_next_segment meta = (Some b0, 0) /\
                           all_full p b0 (conn_list meta) /\
                           eligible p b0 tp = true)) /\
              (q0 < quota tp ->
               exists b0, __mptcp_tdm_next_segment meta = (Some b0, 0) /\
                          all_full p b0 (conn_list meta) /\
                          eligible p b0 tp = true)).
    { intros tp q0 [-> | (-> & Hfull & Hel)].
      - split; [now left | lia].
      - split; [right; split; [reflexivity | now exists b] |].
        intros _. now exists b. }
    apply found_inv in Hfound as [-> | (j & tpj & Hc & Hj & _ & _ & ->)];
      simpl.
    + split; [exact Hlen1 |]. intros i tp Hi.
      destruct (Hsubs i tp Hi) as (q0 & Hq0 & Hcase & Hzero).
      destruct (Hreset tp q0 Hcase) as (Hcase' & Hdec).
      exists q0, q0. split; [exact Hq0 |]. split; [exact Hcase' |].
      split; [intros b0 Hb0; rewrite (Hb b0 Hb0); exact Hzero |].
      split; [| intros Hlt; left; now apply Hdec].
      right. split; [| reflexivity]. intros (_ & Hskb & _). now apply Hskb.
    + split; [now rewrite length_alter |]. intros i tp Hi.
      destruct (Hsubs i tp Hi) as (q0 & Hq0 & Hcase & Hzero).
      destruct (Hreset tp q0 Hcase) as (Hcase' & Hdec).
      destruct (decide (j = i)) as [-> | Hne].
      * rewrite Hj in Hq0. injection Hq0 as ->.
        rewrite list_lookup_alter_eq, Hj. simpl.
        set (q' := to_int (q0 + quota_increment b (current_mss tp))).
        exists q0, q'. split; [reflexivity |].
        assert (Hexact : no_wrap q0 b (current_mss tp) ->
                         q' = q0 + spec_increment b (current_mss tp) /\ q0 < q').
        { intros Hnw. destruct (quota_update_exact _ _ _ Hnw) as [He Hlt].
          unfold q'. rewrite He. auto. }
        split; [exact Hcase' |].
        split; [intros b0 Hb0; rewrite (Hb b0 Hb0); exact Hzero |].
        split; [left; exists b; auto |].
        intros Hlt. destruct Hcase as [-> | (-> & Hfull & Hel)].
        -- right. exists b. split; [reflexivity |]. split; [reflexivity |].
           intros Hnw. apply Hexact in Hnw. lia.
        -- left. now exists b.
      * rewrite list_lookup_alter_ne by exact Hne.
        exists q0, q0. split; [exact Hq0 |]. split; [exact Hcase' |].
        split; [intros b0 Hb0; rewrite (Hb b0 Hb0); exact Hzero |].
        split; [| intros Hlt; left; now apply Hdec].
        right. split; [| reflexivity]. intros (_ & _ & Hsel).
        apply Hne. now injection Hsel.
Qed.

Lemma C3_quota_changes_witness :
  [ex_path 0 1 false 65535 0; ex_path 1 2 false 65535 2] !! 1%nat =
    Some (set_quota 2 (ex_path 1 2 false 65535 10004)) /\
  [ex_path 0 1 false 65535 0; ex_path 1 2 false 65535 2] !! 0%nat =
    Some (set_quota 0 (ex_path 0 1 false 65535 10000)).
Proof.
  pose proof (proj2 (C3_quota_changes 2 default_params
              (ex_meta 0 false 0 [] (Some (ex_skb 2920 0 false))
                 [ex_path 0 1 false 65535 10000; ex_path 1 2 false 65535 10004])
              None
              {| ret_skb := Some (ex_skb 2920 0 false); out_reinject := 0;
                 out_subsk := Some 1%nat; out_limit := 14600000;
                 out_meta :=
                   ex_meta 0 false 0 [] (Some (ex_skb 2920 0 false))
                     [ex_path 0 1 false 65535 0; ex_path 1 2 false 65535 2] |}
              ltac:(simpl; lia) eq_refl)) as Hall.
  assert (Hfull : all_full default_params (ex_skb 2920 0 false)
                    (conn_list
                       (ex_meta 0 false 0 [] (Some (ex_skb 2920 0 false))
                          [ex_path 0 1 false 65535 10000;
                           ex_path 1 2 false 65535 10004]))).
  { split.
    - exists (ex_path 0 1 false 65535 10000). split; [left | reflexivity].
    - intros tp Htp _. simpl in Htp.
      apply elem_of_cons in Htp as [-> | Htp]; [simpl; lia |].
      apply elem_of_cons in Htp as [-> | Htp]; [simpl; lia |].
      inversion Htp. }
  split.
  - destruct (Hall 1%nat (ex_path 1 2 false 65535 10004) eq_refl)
      as (q0 & q' & Hq & _ & Hzero & Hsel & _).
    refine (eq_trans Hq _). f_equal. f_equal.
    rewrite (Hzero (ex_skb 2920 0 false) eq_refl Hfull eq_refl) in Hsel.
    destruct Hsel as [(b & _ & Hb & _ & -> & _) | (Hnot & _)].
    + simpl in Hb. injection Hb as <-. reflexivity.
    + exfalso. apply Hnot. simpl. split; [reflexivity |].
      split; [discriminate | reflexivity].
  - destruct (Hall 0%nat (ex_path 0 1 false 65535 10000) eq_refl)
      as (q0 & q' & Hq & _ & Hzero & Hsel & _).
    refine (eq_trans Hq _). f_equal. f_equal.
    rewrite (Hzero (ex_skb 2920 0 false) eq_refl Hfull eq_refl) in Hsel.
    destruct Hsel as [(b & _ & _ & Hi & _) | (_ & ->)]; [| reflexivity].
    simpl in Hi. discriminate.
Defined.

(** C3 (as stated) fails: with num_segments = INT_MAX, an Active subflow
    at quota INT_MAX - 1 and a segment of two mss, the update wraps: the
    quota falls to INT_MIN in a call that makes no reset. *)
Lemma C3_quota_wraps :
  int_range INT_MAX = true /\
  ~ all_full {| num_segments := INT_MAX; cwnd_limited := true |}
      (ex_skb 2920 0 false) [ex_path 0 1 false 65535 (INT_MAX - 1)] /\
  exists r,
    mptcp_tdm_next_segment 2 {| num_segments := INT_MAX; cwnd_limited := true |}
      (ex_meta 0 false 0 [] (Some (ex_skb 2920 0 false))
         [ex_path 0 1 false 65535 (INT_MAX - 1)]) None = Returns r /\
    out_subsk r = Some 0%nat /\
    spec_increment (ex_skb 2920 0 false) 1460 = 2 /\
    quota <$> conn_list (out_meta r) = [INT_MIN].
Proof.
  split; [reflexivity |]. split.
  - intros [_ Hfull].
    specialize (Hfull (ex_path 0 1 false 65535 (INT_MAX - 1))
                  ltac:(left) eq_refl).
    simpl in Hfull. unfold INT_MAX in Hfull. lia.
  - eexists. split; [reflexivity |]. simpl. repeat split; reflexivity.
Qed.

(** C4 (as amended): in fallback mode the segment is the send head of the
    meta socket (NULL when there is none), the reinject queue is not looked
    at and *reinject is 0; for that segment the call then goes through the
    scan, the reset and the quota update of the quota branch like for any
    segment of the send queue. *)
Theorem C4_fallback_goes_through_quota_branch fuel p meta subsk :
  fallback meta = true ->
  __mptcp_tdm_next_segment meta = (send_head meta, 0) /\
  mptcp_tdm_next_segment fuel p meta subsk =
  match send_head meta with
  | None =>
      Returns {| ret_skb := None; out_reinject := 0; out_subsk := subsk;
                 out_limit := 0; out_meta := meta |}
  | Some b =>
      match retry fuel p b (conn_list meta) (scan_init p) with
      | None => OutOfFuel
      | Some (subs, st) => found b meta subsk subs st
      end
  end.
Proof.
  unfold fallback. intros Hfb.
  assert (Hnext : __mptcp_tdm_next_segment meta = (send_head meta, 0))
    by (unfold __mptcp_tdm_next_segment; now rewrite Hfb).
  split; [exact Hnext |].
  unfold mptcp_tdm_next_segment. rewrite Hnext.
  destruct (send_head meta); reflexivity.
Qed.

Lemma C4_fallback_goes_through_quota_branch_witness :
  mptcp_tdm_next_segment 2 default_params
    (ex_meta 0 true 0 [ex_skb 1460 0 false] None [ex_path 0 1 false 65535 0])
    None =
  Returns {| ret_skb := None; out_reinject := 0; out_subsk := None;
             out_limit := 0;
             out_meta := ex_meta 0 true 0 [ex_skb 1460 0 false] None
                           [ex_path 0 1 false 65535 0] |}.
Proof.
  apply (C4_fallback_goes_through_quota_branch 2 default_params
           (ex_meta 0 true 0 [ex_skb 1460 0 false] None
              [ex_path 0 1 false 65535 0]) None).
  reflexivity.
Defined.

(** C4 (as stated) fails: in fallback mode, with one subflow whose quota
    is used up, the call resets the quota, selects the subflow and counts
    the segment on it. *)
Lemma C4_fallback_counts_quota :
  fallback (ex_meta 0 true 0 [] (Some (ex_skb 1460 0 false))
              [ex_path 0 1 false 65535 10000]) = true /\
  exists r,
    mptcp_tdm_next_segment 2 default_params
      (ex_meta 0 true 0 [] (Some (ex_skb 1460 0 false))
         [ex_path 0 1 false 65535 10000]) None = Returns r /\
    ret_skb r = Some (ex_skb 1460 0 false) /\
    out_limit r = 14600000 /\
    quota <$> conn_list (out_meta r) = [1].
Proof.
  split; [reflexivity |]. eexists. split; [reflexivity |]. simpl. auto.
Qed.

(** C6 (as amended): in the quota branch the selected subflow is tested
    once more before the call returns, with the congestion-window test on
    and the zero-window test off. When that test fails the call returns NULL,
    with *limit = 0, *subsk not written and no quota incremented; when it
    passes (and the division of line 287 is defined) the call returns the
    segment on that subflow, whatever the zero-window test would say. *)
Theorem C6_final_check fuel p meta subsk b subs st i tp :
  __mptcp_tdm_next_segment meta = (Some b, 0) ->
  retry fuel p b (conn_list meta) (scan_init p) = Some (subs, st) ->
  choose_sk st = Some i -> subs !! i = Some tp ->
  (mptcp_tdm_is_available tp (Some b) false true = false ->
   mptcp_tdm_next_segment fuel p meta subsk =
   Returns (no_decision meta subsk subs)) /\
  (mptcp_tdm_is_available tp (Some b) false true = true ->
   (current_mss tp <? skb_len b) && (current_mss tp =? 0) = false ->
   exists r, mptcp_tdm_next_segment fuel p meta subsk = Returns r /\
             ret_skb r = Some b /\ out_subsk r = Some i /\
             out_limit r = u32 (split st * current_mss tp)).
Proof.
  intros Hnext Hretry Hc Hi.
  rewrite (next_segment_quota_branch _ _ _ _ _ Hnext), Hretry.
  unfold found. rewrite Hc, Hi. split.
  - intros ->. reflexivity.
  - intros -> ->. simpl. eexists. split; [reflexivity |]. simpl. auto.
Qed.

Lemma C6_final_check_witness :
  mptcp_tdm_next_segment 2 {| num_segments := 10000; cwnd_limited := false |}
    (ex_meta 0 false 0 [] (Some (ex_skb 1460 0 false)) [ex_path_busy 0 1 0])
    None =
  Returns (no_decision
             (ex_meta 0 false 0 [] (Some (ex_skb 1460 0 false))
                [ex_path_busy 0 1 0])
             None [ex_path_busy 0 1 0]).
Proof.
  apply (C6_final_check 2 {| num_segments := 10000; cwnd_limited := false |}
           (ex_meta 0 false 0 [] (Some (ex_skb 1460 0 false))
              [ex_path_busy 0 1 0])
           None (ex_skb 1460 0 false) [ex_path_busy 0 1 0]
           {| iter := 1; full_subs := 0; split := 10000; choose_sk := Some 0%nat |}
           0%nat (ex_path_busy 0 1 0));
    reflexivity.
Defined.

(** C6 (as stated) fails: the peer's window is closed on the only subflow
    (write_seq has reached the end of the window), so the subflow fails the
    test with the zero-window test on, and the call still returns the
    segment on it. *)
Lemma C6_zero_window_not_checked :
  mptcp_tdm_is_available (ex_path 0 1 false 0 0)
    (Some (ex_skb 1460 0 false)) true true = false /\
  exists r,
    mptcp_tdm_next_segment 2 default_params
      (ex_meta 0 false 0 [] (Some (ex_skb 1460 0 false))
         [ex_path 0 1 false 0 0]) None = Returns r /\
    ret_skb r = Some (ex_skb 1460 0 false) /\ out_subsk r = Some 0%nat /\
    out_limit r = 14600000.
Proof.
  split; [reflexivity |]. eexists. split; [reflexivity |]. simpl. auto.
Qed.




(** C9 (as amended): the round size is an int parameter without a check
    of its sign: every int is accepted, whether positive or not, and is the
    num_segments of the scheduling calls that follow. *)
Theorem C9_every_int_is_accepted v p :
  int_range v = true ->
  exists p', param_set_num_segments v p = Some p' /\
             num_segments p' = v /\ cwnd_limited p' = cwnd_limited p /\
             scan_init p' = {| iter := 0; full_subs := 0; split := v;
                               choose_sk := None |}.
Proof.
  intros Hv. unfold param_set_num_segments. rewrite Hv.
  eexists. split; [reflexivity |]. simpl. auto.
Qed.

Lemma C9_every_int_is_accepted_witness :
  exists p', param_set_num_segments (-5) default_params = Some p' /\
             num_segments p' = -5 /\ cwnd_limited p' = true /\
             scan_init p' = {| iter := 0; full_subs := 0; split := -5;
                               choose_sk := None |}.
Proof. apply (C9_every_int_is_accepted (-5) default_params). reflexivity. Defined.

(** C9 (as stated) fails: a round size of 0 is accepted, and a scheduling
    call then runs with it: it passes the retry label 256 times, until the
    unsigned char iter wraps to 0, and returns the segment with *limit = 0. *)
Lemma C9_zero_round_size_in_effect :
  param_set_num_segments 0 default_params =
    Some {| num_segments := 0; cwnd_limited := true |} /\
  mptcp_tdm_next_segment 255 {| num_segments := 0; cwnd_limited := true |}
    (ex_meta 0 false 0 [] (Some (ex_skb 1460 0 false))
       [ex_path 0 1 false 65535 0]) None = OutOfFuel /\
  exists r,
    mptcp_tdm_next_segment 256 {| num_segments := 0; cwnd_limited := true |}
      (ex_meta 0 false 0 [] (Some (ex_skb 1460 0 false))
         [ex_path 0 1 false 65535 0]) None = Returns r /\
    ret_skb r = Some (ex_skb 1460 0 false) /\ out_subsk r = Some 0%nat /\
    out_limit r = 0.
Proof.
  split; [reflexivity |]. split; [vm_compute; reflexivity |].
  eexists. split; [vm_compute; reflexivity |]. simpl. auto.
Qed.

(** C10: when the call returns a segment with *reinject set, the segment
    is the head of the reinject queue, *limit is 0, the list of subflows with
    their quotas is what it was, and the subflow is the one
    tdm_get_available_subflow gives with the zero-window test off. *)
Theorem C10_reinjected_segment fuel p meta subsk r b :
  mptcp_tdm_next_segment fuel p meta subsk = Returns r ->
  ret_skb r = Some b ->
  out_reinject r = 1 ->
  out_limit r = 0 /\
  conn_list (out_meta r) = conn_list meta /\
  exists b0 rest,
    reinject_queue meta = b0 :: rest /\
    tdm_get_available_subflow meta (Some b0) false = (out_subsk r, Some b).
Proof.
  unfold mptcp_tdm_next_segment, __mptcp_tdm_next_segment.
  intros Hret Hskb Hre.
  destruct (infinite_mapping_snd meta || send_infinite_mapping meta).
  - destruct (send_head meta) as [h |].
    + simpl in Hret.
      destruct (retry fuel p h (conn_list meta) (scan_init p)) as [[subs st] |];
        [| discriminate].
      apply found_reinject in Hret. lia.
    + injection Hret as <-. discriminate.
  - destruct (reinject_queue meta) as [| b0 rest] eqn:Hq.
    + destruct (send_head meta) as [h |].
      * simpl in Hret.
        destruct (retry fuel p h (conn_list meta) (scan_init p)) as [[subs st] |];
          [| discriminate].
        apply found_reinject in Hret. lia.
      * injection Hret as <-. discriminate.
    + simpl in Hret.
      destruct (tdm_get_available_subflow meta (Some b0) false) as [sel skb'] eqn:Hsel.
      destruct sel as [i |]; injection Hret as <-; simpl in *; [| discriminate].
      subst skb'. repeat split; eauto.
Qed.

Lemma C10_reinjected_segment_witness :
  let meta := ex_meta 0 false 0 [ex_skb 1460 1 false] None
                [ex_path 0 1 false 65535 7; ex_path 1 2 false 65535 0] in
  exists r,
    mptcp_tdm_next_segment 2 default_params meta None = Returns r /\
    out_limit r = 0 /\ conn_list (out_meta r) = conn_list meta /\
    out_subsk r = Some 1%nat.
Proof.
  intros meta.
  exists {| ret_skb := Some (ex_skb 1460 1 false); out_reinject := 1;
            out_subsk := Some 1%nat; out_limit := 0; out_meta := meta |}.
  destruct (C10_reinjected_segment 2 default_params meta None
              {| ret_skb := Some (ex_skb 1460 1 false); out_reinject := 1;
                 out_subsk := Some 1%nat; out_limit := 0; out_meta := meta |}
              (ex_skb 1460 1 false) eq_refl eq_refl eq_refl) as (Hl & Hc & _).
  split; [reflexivity |]. split; [exact Hl |]. split; [exact Hc | reflexivity].
Defined.

(** * Further properties *)

(** Membership in a list that is written out. *)
Ltac in_list H :=
  repeat (apply elem_of_cons in H as [-> | H]); [.. | inversion H].

(** A position of a list of two that is written out. *)
Ltac at_position j H :=
  destruct j as [| [| j]]; simpl in H;
  [injection H as <- | injection H as <- | discriminate H].

(** ** Further properties of mptcp_tdm_is_available *)

(** X1: Switching a test off never makes an available subflow unavailable. *)
Theorem is_available_weaken tp skb z c z' c' :
  implb z' z = true -> implb c' c = true ->
  mptcp_tdm_is_available tp skb z c = true ->
  mptcp_tdm_is_available tp skb z' c' = true.
Proof.
  unfold mptcp_tdm_is_available. intros Hz Hc.
  destruct (tdn_mismatch tp); [discriminate |].
  destruct (negb (sk_can_send tp)); [discriminate |].
  destruct (pre_established tp); [discriminate |].
  destruct (pf tp); [discriminate |].
  destruct (match icsk_ca_state tp with TCP_CA_Loss => _ | _ => false end);
    [discriminate |].
  destruct (negb (fully_established tp) && _); [discriminate |].
  destruct c, c'; try discriminate; simpl;
    destruct z, z'; try discriminate; simpl;
    repeat match goal with
           | |- context [if ?b then _ else _] => destruct b
           end; auto.
Qed.

Lemma is_available_weaken_witness :
  mptcp_tdm_is_available (ex_path 0 1 false 65535 0)
    (Some (ex_skb 1460 0 false)) false true = true.
Proof.
  apply (is_available_weaken (ex_path 0 1 false 65535 0)
           (Some (ex_skb 1460 0 false)) true true false true);
    reflexivity.
Defined.

(** X2: The in-order test of lines 68-73 needs a segment and a subflow that is
    not fully established: a NULL skb passes wherever a segment passes, and
    on a fully established subflow the segment plays no role. *)
Theorem is_available_skb tp b z c :
  (mptcp_tdm_is_available tp (Some b) z c = true ->
   mptcp_tdm_is_available tp None z c = true) /\
  (fully_established tp = true ->
   mptcp_tdm_is_available tp (Some b) z c =
   mptcp_tdm_is_available tp None z c).
Proof.
  unfold mptcp_tdm_is_available. split.
  - destruct (tdn_mismatch tp); [discriminate |].
    destruct (negb (sk_can_send tp)); [discriminate |].
    destruct (pre_established tp); [discriminate |].
    destruct (pf tp); [discriminate |].
    destruct (match icsk_ca_state tp with TCP_CA_Loss => _ | _ => false end);
      [discriminate |].
    rewrite andb_false_r.
    destruct (negb (fully_established tp) && _); [discriminate | auto].
  - intros ->. reflexivity.
Qed.

(** The path mask of the skb plays no role in the availability test. *)
Lemma is_available_set_path_mask tp m skb z c :
  mptcp_tdm_is_available tp (set_path_mask m <$> skb) z c =
  mptcp_tdm_is_available tp skb z c.
Proof. now destruct skb. Qed.

(** ** Further properties of tdm_get_available_subflow *)

Lemma get_subflow_prefers_fresh_witness :
  exists i tp,
    tdm_get_available_subflow
      (ex_meta 0 false 0 [] None
         [ex_path 0 1 false 65535 0; ex_path 1 2 false 65535 0])
      (Some (ex_skb 1460 2 false)) false =
    (Some i, Some (ex_skb 1460 2 false)) /\
    last_at (fun tp =>
               mptcp_tdm_is_available tp (Some (ex_skb 1460 2 false)) false true &&
               negb (mptcp_tdm_dont_reinject_skb tp (Some (ex_skb 1460 2 false))))
      [ex_path 0 1 false 65535 0; ex_path 1 2 false 65535 0] i tp.
Proof.
  apply (get_subflow_prefers_fresh
           (ex_meta 0 false 0 [] None
              [ex_path 0 1 false 65535 0; ex_path 1 2 false 65535 0])
           (Some (ex_skb 1460 2 false)) false (ex_path 0 1 false 65535 0)).
  - reflexivity.
  - simpl. left.
  - reflexivity.
  - reflexivity.
Defined.

Lemma get_subflow_reuses_carried_witness :
  exists i tp,
    tdm_get_available_subflow
      (ex_meta 0 false 0 [] None
         [ex_path 0 1 false 65535 0; ex_path 1 2 false 65535 0])
      (Some (ex_skb 1460 3 false)) false =
    (Some i, set_path_mask 0 <$> Some (ex_skb 1460 3 false)) /\
    last_at (fun tp =>
               mptcp_tdm_is_available tp (Some (ex_skb 1460 3 false)) false true)
      [ex_path 0 1 false 65535 0; ex_path 1 2 false 65535 0] i tp.
Proof.
  apply (get_subflow_reuses_carried
           (ex_meta 0 false 0 [] None
              [ex_path 0 1 false 65535 0; ex_path 1 2 false 65535 0])
           (Some (ex_skb 1460 3 false)) false (ex_path 0 1 false 65535 0)).
  - reflexivity.
  - simpl. left.
  - reflexivity.
  - simpl. intros tp Htp _. in_list Htp; reflexivity.
Defined.

Section GetSubflowMore.

Variables (skb : option sk_buff) (zero_wnd_test : bool).

Local Abbreviation avail :=
  (fun tp => mptcp_tdm_is_available tp skb zero_wnd_test true).

(** A return from inside the data-fin loop is at an available subflow of
    the list with the path index looked for. *)
Lemma dfin_loop_inl dfin subs : forall idx sk0 i,
  dfin_loop dfin skb zero_wnd_test subs idx sk0 = inl i ->
  exists k tp, i = (idx + k)%nat /\ subs !! k = Some tp /\
               path_index tp = dfin /\ avail tp = true.
Proof.
  induction subs as [| a rest IH]; intros idx sk0 i H; [discriminate |].
  simpl in H.
  destruct ((path_index a =? dfin) && avail a) eqn:Ha.
  - injection H as <-. apply andb_true_iff in Ha as [Hpi Hav].
    exists 0%nat, a. apply Z.eqb_eq in Hpi. repeat split; auto; lia.
  - apply IH in H as (k & tp & -> & Hk & Hpi & Hav).
    exists (S k), tp. repeat split; auto; lia.
Qed.

(** The data-fin loop does not look at the path mask. *)
Lemma dfin_loop_set_path_mask dfin m subs : forall idx sk0,
  dfin_loop dfin (set_path_mask m <$> skb) zero_wnd_test subs idx sk0 =
  dfin_loop dfin skb zero_wnd_test subs idx sk0.
Proof.
  induction subs as [| a rest IH]; intros idx sk0; [reflexivity |].
  simpl. rewrite is_available_set_path_mask, IH. reflexivity.
Qed.

End GetSubflowMore.

Lemma last_at_lookup f subs k tp :
  last_at f subs k tp -> subs !! k = Some tp /\ f tp = true.
Proof. intros (H1 & H2 & _). auto. Qed.

(** Two tests that agree on the list have the same last position. *)
Lemma last_at_agree f g subs k tp k' tp' :
  (forall x, x ∈ subs -> f x = g x) ->
  last_at f subs k tp -> last_at g subs k' tp' -> k = k'.
Proof.
  intros Hfg (Hk & Hf & Hmax) (Hk' & Hg & Hmax').
  assert (Hin : tp ∈ subs) by (apply list_elem_of_lookup; eauto).
  assert (Hin' : tp' ∈ subs) by (apply list_elem_of_lookup; eauto).
  destruct (Nat.lt_trichotomy k k') as [Hlt | [-> | Hlt]]; [| reflexivity |].
  - specialize (Hmax k' tp' Hlt Hk'). rewrite (Hfg tp' Hin') in Hmax. congruence.
  - specialize (Hmax' k tp Hlt Hk). rewrite <- (Hfg tp Hin) in Hmax'. congruence.
Qed.

(** X5: The returned pointer is a subflow of the connection, and it is NULL
    only on a connection without subflows. *)
Theorem get_subflow_in_list meta skb zero_wnd_test :
  (forall i, fst (tdm_get_available_subflow meta skb zero_wnd_test) = Some i ->
             (i < length (conn_list meta))%nat) /\
  (fst (tdm_get_available_subflow meta skb zero_wnd_test) = None <->
   conn_list meta = []).
Proof.
  assert (Hsome : conn_list meta <> [] ->
            exists i, fst (tdm_get_available_subflow meta skb zero_wnd_test) = Some i /\
                      (i < length (conn_list meta))%nat).
  { intros Hne. unfold tdm_get_available_subflow.
    destruct (if answers_data_fin meta skb then _ else _) as [i | sk0] eqn:Hd.
    - exists i. split; [reflexivity |].
      destruct (answers_data_fin meta skb); [| discriminate].
      apply dfin_loop_inl in Hd as (k & tp & -> & Hk & _).
      apply lookup_lt_Some in Hk. lia.
    - destruct (best_loop_choice skb zero_wnd_test (conn_list meta) 0%nat
                  {| sk := sk0; bestsk := None; backupsk := None |})
        as [[(k & tp & Hl & Hb) | (_ & Hb)] [(k' & tp' & Hl' & Hb') | (_ & Hb')]];
        rewrite Hb; simpl;
        try (exists k; split; [reflexivity |];
             apply last_at_lookup in Hl as [Hl _];
             now apply lookup_lt_Some in Hl).
      + rewrite Hb'. simpl. exists k'. split; [reflexivity |].
        apply last_at_lookup in Hl' as [Hl' _]. now apply lookup_lt_Some in Hl'.
      + rewrite Hb'. simpl. rewrite best_loop_sk.
        destruct (conn_list meta) as [| a rest]; [contradiction |].
        simpl. eexists. split; [reflexivity |]. lia. }
  destruct (conn_list meta) as [| a rest] eqn:Hsubs.
  - assert (Hnone : fst (tdm_get_available_subflow meta skb zero_wnd_test) = None).
    { unfold tdm_get_available_subflow. rewrite Hsubs.
      destruct (answers_data_fin meta skb); reflexivity. }
    rewrite Hnone. split; [discriminate | tauto].
  - destruct Hsome as (i & Hi & Hlt); [discriminate |].
    rewrite Hi. split; [now intros j [= <-] | split; discriminate].
Qed.

(** X6: Whenever some subflow is available, the returned subflow is
    available. *)
Theorem get_subflow_available meta skb zero_wnd_test tp0 :
  tp0 ∈ conn_list meta ->
  mptcp_tdm_is_available tp0 skb zero_wnd_test true = true ->
  exists i tp,
    fst (tdm_get_available_subflow meta skb zero_wnd_test) = Some i /\
    conn_list meta !! i = Some tp /\
    mptcp_tdm_is_available tp skb zero_wnd_test true = true.
Proof.
  intros Hin Hav. unfold tdm_get_available_subflow.
  destruct (if answers_data_fin meta skb then _ else _) as [i | sk0] eqn:Hd.
  - destruct (answers_data_fin meta skb); [| discriminate].
    apply dfin_loop_inl in Hd as (k & tp & -> & Hk & _ & Ha).
    exists k, tp. auto.
  - destruct (best_loop_choice skb zero_wnd_test (conn_list meta) 0%nat
                {| sk := sk0; bestsk := None; backupsk := None |})
      as [[(k & tp & Hl & Hb) | (Hno & Hb)] [(k' & tp' & Hl' & Hb') | (Hno' & Hb')]];
      rewrite Hb; simpl;
      try (apply last_at_lookup in Hl as [Hl Hf];
           apply andb_true_iff in Hf as [Hf _]; exists k, tp; now auto).
    + rewrite Hb'. simpl. apply last_at_lookup in Hl' as [Hl' Hf].
      apply andb_true_iff in Hf as [Hf _]. exists k', tp'. auto.
    + specialize (Hno tp0 Hin). specialize (Hno' tp0 Hin). simpl in Hno, Hno'.
      rewrite Hav in Hno, Hno'. simpl in Hno, Hno'.
      destruct (mptcp_tdm_dont_reinject_skb tp0 skb); discriminate.
Qed.

Lemma get_subflow_available_witness :
  exists i tp,
    fst (tdm_get_available_subflow
           (ex_meta 0 false 0 [] None
              [ex_path 0 1 false 65535 0; ex_path 0 2 false 65535 0])
           (Some (ex_skb 1460 0 false)) false) = Some i /\
    [ex_path 0 1 false 65535 0; ex_path 0 2 false 65535 0] !! i = Some tp /\
    mptcp_tdm_is_available tp (Some (ex_skb 1460 0 false)) false true = true.
Proof.
  apply (get_subflow_available
           (ex_meta 0 false 0 [] None
              [ex_path 0 1 false 65535 0; ex_path 0 2 false 65535 0])
           (Some (ex_skb 1460 0 false)) false (ex_path 0 1 false 65535 0)).
  - simpl. left.
  - reflexivity.
Defined.

(** Once the path mask is reset no subflow has carried the skb. *)
Lemma dont_reinject_reset_mask tp skb :
  mptcp_tdm_dont_reinject_skb tp (set_path_mask 0 <$> skb) = false.
Proof. destruct skb as [b |]; simpl; [| reflexivity]. now rewrite Z.land_0_r. Qed.

Lemma answers_data_fin_set_path_mask meta m skb :
  answers_data_fin meta (set_path_mask m <$> skb) = answers_data_fin meta skb.
Proof. now destruct skb. Qed.

(** X7: Asking again with the skb the function left behind gives the same
    subflow and leaves the skb as it is: the path mask is reset at most once,
    and the reset does not change the choice. *)
Theorem get_subflow_idempotent meta skb zero_wnd_test :
  tdm_get_available_subflow meta
    (snd (tdm_get_available_subflow meta skb zero_wnd_test)) zero_wnd_test =
  tdm_get_available_subflow meta skb zero_wnd_test.
Proof.
  destruct (tdm_get_available_subflow meta skb zero_wnd_test) as [sel skb'] eqn:H.
  simpl. unfold tdm_get_available_subflow in H.
  destruct (if answers_data_fin meta skb then _ else _) as [i | sk0] eqn:Hd.
  { injection H as <- <-. unfold tdm_get_available_subflow. now rewrite Hd. }
  destruct (best_loop_choice skb zero_wnd_test (conn_list meta) 0%nat
              {| sk := sk0; bestsk := None; backupsk := None |})
    as [[(k & tp & Hl & Hb) | (Hno & Hb)] Hbackup].
  { rewrite Hb in H. injection H as <- <-.
    unfold tdm_get_available_subflow. now rewrite Hd, Hb. }
  rewrite Hb in H. simpl in H.
  destruct Hbackup as [(k' & tp' & Hl' & Hb') | (Hno' & Hb')]; rewrite Hb' in H;
    simpl in H; injection H as <- <-.
  - (* the path mask was reset *)
    unfold tdm_get_available_subflow.
    rewrite answers_data_fin_set_path_mask.
    replace (if answers_data_fin meta skb
             then dfin_loop (dfin_path_index meta) (set_path_mask 0 <$> skb)
                    zero_wnd_test (conn_list meta) 0 None
             else inr None) with (inr sk0 : nat + option nat)
      by (rewrite <- Hd; destruct (answers_data_fin meta skb);
          [now rewrite dfin_loop_set_path_mask | reflexivity]).
    destruct (best_loop_choice (set_path_mask 0 <$> skb) zero_wnd_test
                (conn_list meta) 0%nat
                {| sk := sk0; bestsk := None; backupsk := None |})
      as [[(k & tp & Hl & Hb2) | (Hno2 & _)] _].
    + rewrite Hb2.
      assert (k = k') as ->.
      { refine (last_at_agree _ _ _ _ _ _ _ _ Hl Hl'). intros x Hx. simpl.
        rewrite is_available_set_path_mask, dont_reinject_reset_mask.
        specialize (Hno x Hx). simpl in Hno. simpl.
        destruct (mptcp_tdm_is_available x skb zero_wnd_test true); [| reflexivity].
        simpl in *. now destruct (mptcp_tdm_dont_reinject_skb x skb). }
      reflexivity.
    + apply last_at_lookup in Hl' as [Hk' Hc].
      assert (Hin : tp' ∈ conn_list meta) by (apply list_elem_of_lookup; eauto).
      specialize (Hno2 tp' Hin). simpl in Hno2.
      rewrite is_available_set_path_mask, dont_reinject_reset_mask in Hno2.
      apply andb_true_iff in Hc as [Hc _]. rewrite Hc in Hno2. discriminate.
  - unfold tdm_get_available_subflow. now rewrite Hd, Hb, Hb'.
Qed.

(** ** Further properties of mptcp_tdm_next_segment *)

(** The three ways in which __mptcp_tdm_next_segment answers. *)
Lemma next_segment_source meta :
  (__mptcp_tdm_next_segment meta = (None, 0) /\ send_head meta = None /\
   (fallback meta = true \/ reinject_queue meta = [])) \/
  (exists b, __mptcp_tdm_next_segment meta = (Some b, 0) /\
             send_head meta = Some b /\
             (fallback meta = true \/ reinject_queue meta = [])) \/
  (exists b rest, __mptcp_tdm_next_segment meta = (Some b, 1) /\
                  fallback meta = false /\ reinject_queue meta = b :: rest).
Proof.
  unfold __mptcp_tdm_next_segment, fallback.
  destruct (infinite_mapping_snd meta || send_infinite_mapping meta).
  - destruct (send_head meta) as [b |]; [right; left; exists b | left]; auto.
  - destruct (reinject_queue meta) as [| b rest].
    + destruct (send_head meta) as [h |]; [right; left; exists h | left]; auto.
    + right. right. exists b, rest. auto.
Qed.

(** The skb comes back as it went in, or with its path mask reset. *)
Lemma get_subflow_skb meta skb zero_wnd_test :
  snd (tdm_get_available_subflow meta skb zero_wnd_test) = skb \/
  snd (tdm_get_available_subflow meta skb zero_wnd_test) =
    set_path_mask 0 <$> skb.
Proof.
  unfold tdm_get_available_subflow.
  destruct (if answers_data_fin meta skb then _ else _) as [i | sk0];
    [now left |].
  destruct (bestsk _); [now left |]. destruct (backupsk _); [now right | now left].
Qed.

(** The list of subflows at the found label, for every round size. *)
Lemma retry_list fuel p b subs0 subs st :
  retry fuel p b subs0 (scan_init p) = Some (subs, st) ->
  subs = subs0 \/ subs = reset_quotas p b subs0.
Proof.
  intros H. destruct fuel as [| f]; [discriminate |].
  rewrite retry_S in H.
  destruct (scan_loop p b subs0 0 (scan_init p)) as [st1 g].
  destruct g; [left; now injection H as <- _ |].
  destruct (round_exhausted st1); [| left; now injection H as <- _].
  right. exact (retry_after_reset _ _ _ _ _ _ _ H).
Qed.

Lemma set_conn_list_same meta : set_conn_list (conn_list meta) meta = meta.
Proof. now destruct meta. Qed.

(** How a call returns: without a segment, with a segment of the reinject
    queue, or through the quota branch. *)
Lemma next_segment_cases fuel p meta subsk r :
  mptcp_tdm_next_segment fuel p meta subsk = Returns r ->
  (send_head meta = None /\
   r = {| ret_skb := None; out_reinject := 0; out_subsk := subsk;
          out_limit := 0; out_meta := meta |}) \/
  (exists b0 rest b',
     fallback meta = false /\ reinject_queue meta = b0 :: rest /\
     snd (tdm_get_available_subflow meta (Some b0) false) = Some b' /\
     r = {| ret_skb :=
              match fst (tdm_get_available_subflow meta (Some b0) false) with
              | Some _ => Some b'
              | None => None
              end;
            out_reinject := 1;
            out_subsk := fst (tdm_get_available_subflow meta (Some b0) false);
            out_limit := 0;
            out_meta := set_reinject_queue (b' :: rest) meta |}) \/
  (exists b subs st,
     __mptcp_tdm_next_segment meta = (Some b, 0) /\ send_head meta = Some b /\
     retry fuel p b (conn_list meta) (scan_init p) = Some (subs, st) /\
     found b meta subsk subs st = Returns r).
Proof.
  intros H. unfold mptcp_tdm_next_segment in H.
  destruct (next_segment_source meta)
    as [(Hn & Hh & _) | [(b & Hn & Hh & _) | (b & rest & Hn & Hfb & Hq)]];
    rewrite Hn in H; simpl in H.
  - injection H as <-. now left.
  - right. right.
    destruct (retry fuel p b (conn_list meta) (scan_init p)) as [[subs st] |] eqn:Hr;
      [| discriminate].
    exists b, subs, st. auto.
  - right. left.
    pose proof (get_subflow_skb meta (Some b) false) as Hskb.
    rewrite Hq in H. simpl in H.
    destruct (tdm_get_available_subflow meta (Some b) false) as [sel skb'] eqn:Hg.
    simpl in Hskb.
    assert (exists b', skb' = Some b') as (b' & ->)
      by (destruct Hskb as [-> | ->]; simpl; eauto).
    exists b, rest, b'. rewrite Hg. simpl.
    destruct sel; injection H as <-; auto.
Qed.

(** X8: *reinject is left at 0 or 1, never at -1; it is 1 exactly when the
    connection is not in fallback mode and the reinject queue is not empty;
    a segment returned with *reinject = 0 is the send head, unchanged. *)
Theorem next_segment_reinject_flag fuel p meta subsk r :
  mptcp_tdm_next_segment fuel p meta subsk = Returns r ->
  (out_reinject r = 0 \/ out_reinject r = 1) /\
  (out_reinject r = 1 <->
   fallback meta = false /\ reinject_queue meta <> []) /\
  (forall b, ret_skb r = Some b -> out_reinject r = 0 ->
             send_head meta = Some b).
Proof.
  intros H. unfold mptcp_tdm_next_segment in H.
  assert (Hno : fallback meta = true \/ reinject_queue meta = [] ->
                ~ (fallback meta = false /\ reinject_queue meta <> []))
    by (intros [Hf | Hq] [Hf' Hq']; congruence).
  destruct (next_segment_source meta)
    as [(Hn & Hh & Hsrc) | [(b & Hn & Hh & Hsrc) | (b & rest & Hn & Hfb & Hq)]];
    rewrite Hn in H; simpl in H.
  - injection H as <-. simpl. split; [now left |].
    split; [split; [discriminate | now intros Hc; apply Hno in Hc] | discriminate].
  - destruct (retry fuel p b (conn_list meta) (scan_init p)) as [[subs st] |];
      [| discriminate].
    pose proof (found_reinject _ _ _ _ _ _ H) as Hre. rewrite Hre.
    split; [now left |].
    split; [split; [discriminate | now intros Hc; apply Hno in Hc] |].
    intros b1 Hb1 _.
    apply found_inv in H as [-> | (i & tp & _ & _ & _ & _ & ->)];
      simpl in Hb1; congruence.
  - assert (Hre : out_reinject r = 1).
    { destruct (tdm_get_available_subflow meta (Some b) false) as [[i |] skb'];
        now injection H as <-. }
    rewrite Hre. split; [now right |]. split; [| intros; lia].
    split; [intros _; split; [exact Hfb | now rewrite Hq] | reflexivity].
Qed.

Lemma next_segment_reinject_flag_witness :
  send_head
    (ex_meta 0 false 0 [] (Some (ex_skb 1460 0 false))
       [ex_path 0 1 false 65535 0]) = Some (ex_skb 1460 0 false).
Proof.
  apply (proj2 (proj2 (next_segment_reinject_flag 2 default_params
           (ex_meta 0 false 0 [] (Some (ex_skb 1460 0 false))
              [ex_path 0 1 false 65535 0]) None
           {| ret_skb := Some (ex_skb 1460 0 false); out_reinject := 0;
              out_subsk := Some 0%nat; out_limit := 14600000;
              out_meta :=
                ex_meta 0 false 0 [] (Some (ex_skb 1460 0 false))
                  [ex_path 0 1 false 65535 1] |} eq_refl)));
    reflexivity.
Defined.

(** The lists of subflows before and after the quota branch differ in
    quotas only. *)
Lemma retry_quota_only fuel p b subs0 subs st :
  retry fuel p b subs0 (scan_init p) = Some (subs, st) ->
  length subs = length subs0 /\
  forall i tp, subs0 !! i = Some tp ->
               exists q, subs !! i = Some (set_quota q tp) /\
                         (eligible p b tp = false -> q = quota tp).
Proof.
  intros H. destruct (retry_list _ _ _ _ _ _ H) as [-> | ->].
  - split; [reflexivity |]. intros i tp Hi. exists (quota tp).
    now rewrite set_quota_same.
  - split; [apply reset_quotas_length |]. intros i tp Hi.
    rewrite reset_quotas_lookup, Hi. simpl.
    destruct (eligible p b tp).
    + exists 0. split; [reflexivity | discriminate].
    + exists (quota tp). now rewrite set_quota_same.
Qed.

(** X9: A call reads the queues and never takes a segment off them, and of the
    connection it writes nothing but quotas and, for the head of the reinject
    queue, the path mask. *)
Theorem next_segment_frame fuel p meta subsk r :
  mptcp_tdm_next_segment fuel p meta subsk = Returns r ->
  sk_shutdown (out_meta r) = sk_shutdown meta /\
  infinite_mapping_snd (out_meta r) = infinite_mapping_snd meta /\
  send_infinite_mapping (out_meta r) = send_infinite_mapping meta /\
  dfin_path_index (out_meta r) = dfin_path_index meta /\
  send_head (out_meta r) = send_head meta /\
  (reinject_queue (out_meta r) = reinject_queue meta \/
   exists b rest, reinject_queue meta = b :: rest /\ out_reinject r = 1 /\
                  reinject_queue (out_meta r) = set_path_mask 0 b :: rest) /\
  length (conn_list (out_meta r)) = length (conn_list meta) /\
  forall i tp, conn_list meta !! i = Some tp ->
               exists q, conn_list (out_meta r) !! i = Some (set_quota q tp).
Proof.
  intros H.
  assert (Hsame : forall i tp, conn_list meta !! i = Some tp ->
            exists q, conn_list meta !! i = Some (set_quota q tp))
    by (intros i tp Hi; exists (quota tp); now rewrite set_quota_same).
  destruct (next_segment_cases _ _ _ _ _ H)
    as [(_ & ->) | [(b0 & rest & b' & _ & Hq & Hb' & ->)
                   | (b & subs & st & _ & _ & Hr & Hf)]]; simpl.
  - repeat split; auto.
  - repeat split; auto.
    destruct (get_subflow_skb meta (Some b0) false) as [Hs | Hs];
      rewrite Hs in Hb'; simpl in Hb'; injection Hb' as <-.
    + left. now rewrite Hq.
    + right. exists b0, rest. auto.
  - destruct (retry_quota_only _ _ _ _ _ _ Hr) as (Hlen & Hsubs).
    apply found_inv in Hf as [-> | (j & tpj & _ & Hj & _ & _ & ->)]; simpl.
    + repeat split; auto.
      intros i tp Hi. destruct (Hsubs i tp Hi) as (q & Hq & _). eauto.
    + repeat split; auto; [now rewrite length_alter |].
      intros i tp Hi. destruct (Hsubs i tp Hi) as (q & Hq & _).
      destruct (decide (j = i)) as [-> | Hne].
      * rewrite list_lookup_alter_eq, Hq. simpl. eauto.
      * rewrite list_lookup_alter_ne by exact Hne. eauto.
Qed.

Lemma next_segment_frame_witness :
  send_head
    (ex_meta 0 false 0 [ex_skb 1460 1 false] (Some (ex_skb 1460 0 false))
       [ex_path 0 1 false 65535 0]) = Some (ex_skb 1460 0 false) /\
  reinject_queue
    (ex_meta 0 false 0 [ex_skb 1460 0 false] (Some (ex_skb 1460 0 false))
       [ex_path 0 1 false 65535 0]) = [ex_skb 1460 0 false].
Proof.
  destruct (next_segment_frame 2 default_params
              (ex_meta 0 false 0 [ex_skb 1460 1 false]
                 (Some (ex_skb 1460 0 false)) [ex_path 0 1 false 65535 0])
              None
              {| ret_skb := Some (ex_skb 1460 0 false); out_reinject := 1;
                 out_subsk := Some 0%nat; out_limit := 0;
                 out_meta :=
                   ex_meta 0 false 0 [ex_skb 1460 0 false]
                     (Some (ex_skb 1460 0 false))
                     [ex_path 0 1 false 65535 0] |} eq_refl)
    as (_ & _ & _ & _ & Hh & _).
  split; [exact Hh | reflexivity].
Defined.

(** X10: A call that returns NULL leaves *limit at 0, and a call that returns a
    segment leaves in *subsk a subflow of the connection. *)
Theorem next_segment_outputs fuel p meta subsk r :
  mptcp_tdm_next_segment fuel p meta subsk = Returns r ->
  (ret_skb r = None -> out_limit r = 0) /\
  (forall b, ret_skb r = Some b ->
     exists i, out_subsk r = Some i /\ (i < length (conn_list meta))%nat).
Proof.
  intros H.
  destruct (next_segment_cases _ _ _ _ _ H)
    as [(_ & ->) | [(b0 & rest & b' & _ & Hq & Hb' & ->)
                   | (b & subs & st & _ & _ & Hr & Hf)]]; simpl.
  - split; [reflexivity | discriminate].
  - split; [reflexivity |]. intros b.
    destruct (fst (tdm_get_available_subflow meta (Some b0) false)) as [i |] eqn:Hi;
      [| discriminate].
    intros _. exists i. split; [reflexivity |].
    now apply (proj1 (get_subflow_in_list meta (Some b0) false)).
  - destruct (retry_quota_only _ _ _ _ _ _ Hr) as (Hlen & _).
    apply found_inv in Hf as [-> | (j & tpj & _ & Hj & _ & _ & ->)]; simpl.
    + split; [reflexivity | discriminate].
    + split; [discriminate |]. intros _ _. exists j. split; [reflexivity |].
      apply lookup_lt_Some in Hj. lia.
Qed.

Lemma next_segment_outputs_witness :
  exists i, Some 1%nat = Some i /\ (i < 2)%nat.
Proof.
  apply (proj2 (next_segment_outputs 2 default_params
           (ex_meta 0 false 0 [] (Some (ex_skb 1460 0 false))
              [ex_path 0 1 false 65535 0; ex_path 1 2 false 65535 0]) None
           {| ret_skb := Some (ex_skb 1460 0 false); out_reinject := 0;
              out_subsk := Some 1%nat; out_limit := 14600000;
              out_meta :=
                ex_meta 0 false 0 [] (Some (ex_skb 1460 0 false))
                  [ex_path 0 1 false 65535 0; ex_path 1 2 false 65535 1] |}
           eq_refl) (ex_skb 1460 0 false) eq_refl).
Defined.

(** X11: When no subflow passes the test of the scan, a call for a segment of
    the send queue returns NULL after one scan and changes nothing. *)
Theorem next_segment_none_eligible fuel p meta subsk b :
  (1 <= fuel)%nat ->
  __mptcp_tdm_next_segment meta = (Some b, 0) ->
  (forall tp, tp ∈ conn_list meta -> eligible p b tp = false) ->
  mptcp_tdm_next_segment fuel p meta subsk =
  Returns {| ret_skb := None; out_reinject := 0; out_subsk := subsk;
             out_limit := 0; out_meta := meta |}.
Proof.
  intros Hfuel Hn Hno.
  assert (Hscan : forall subs idx st,
            (forall tp, tp ∈ subs -> eligible p b tp = false) ->
            scan_loop p b subs idx st = (st, false)).
  { induction subs as [| a rest IH]; intros idx st Hall; [reflexivity |].
    rewrite scan_loop_cons, (Hall a) by left. simpl. apply IH.
    intros tp Htp. apply Hall. now right. }
  rewrite (next_segment_quota_branch _ _ _ _ _ Hn).
  destruct fuel as [| f]; [lia |].
  rewrite retry_S, (Hscan _ _ _ Hno). simpl.
  unfold found, no_decision. simpl. now rewrite set_conn_list_same.
Qed.

Lemma next_segment_none_eligible_witness :
  mptcp_tdm_next_segment 1 default_params
    (ex_meta 0 false 0 [] (Some (ex_skb 1460 0 false))
       [ex_path 0 1 true 65535 3; ex_path_busy 1 2 0]) None =
  Returns {| ret_skb := None; out_reinject := 0; out_subsk := None;
             out_limit := 0;
             out_meta :=
               ex_meta 0 false 0 [] (Some (ex_skb 1460 0 false))
                 [ex_path 0 1 true 65535 3; ex_path_busy 1 2 0] |}.
Proof.
  apply (next_segment_none_eligible 1 default_params
           (ex_meta 0 false 0 [] (Some (ex_skb 1460 0 false))
              [ex_path 0 1 true 65535 3; ex_path_busy 1 2 0]) None
           (ex_skb 1460 0 false)).
  - lia.
  - reflexivity.
  - simpl. intros tp Htp. in_list Htp; reflexivity.
Defined.

(** X12: The quota of a subflow that does not pass the test of the scan is not
    touched, and the subflow a segment of the send queue is returned on does
    pass it. *)
Theorem next_segment_eligible_only fuel p meta subsk b r :
  __mptcp_tdm_next_segment meta = (Some b, 0) ->
  mptcp_tdm_next_segment fuel p meta subsk = Returns r ->
  (forall i tp, conn_list meta !! i = Some tp -> eligible p b tp = false ->
                conn_list (out_meta r) !! i = Some tp) /\
  (ret_skb r <> None ->
   exists i tp, out_subsk r = Some i /\ conn_list meta !! i = Some tp /\
                eligible p b tp = true /\
                mptcp_tdm_is_available tp (Some b) false true = true).
Proof.
  intros Hn H. rewrite (next_segment_quota_branch _ _ _ _ _ Hn) in H.
  destruct (retry fuel p b (conn_list meta) (scan_init p)) as [[subs st] |] eqn:Hr;
    [| discriminate].
  destruct (retry_quota_only _ _ _ _ _ _ Hr) as (Hlen & Hsubs).
  assert (Hkeep : forall i tp, conn_list meta !! i = Some tp ->
                    eligible p b tp = false -> subs !! i = Some tp).
  { intros i tp Hi Hel. destruct (Hsubs i tp Hi) as (q & Hq & Hsame).
    rewrite Hq, (Hsame Hel). now rewrite set_quota_same. }
  apply found_inv in H as [-> | (j & tpj & _ & Hj & Hav & _ & ->)]; simpl.
  - split; [exact Hkeep | now intros Hc].
  - assert (Horig : exists tp0, conn_list meta !! j = Some tp0 /\
                                exists q, tpj = set_quota q tp0).
    { destruct (lookup_lt_is_Some_2 (conn_list meta) j) as [tp0 Htp0];
        [apply lookup_lt_Some in Hj; lia |].
      exists tp0. split; [exact Htp0 |].
      destruct (Hsubs j tp0 Htp0) as (q & Hq & _). exists q. congruence. }
    destruct Horig as (tp0 & Htp0 & q & ->).
    rewrite is_available_set_quota in Hav.
    assert (Hel : eligible p b tp0 = true).
    { unfold eligible.
      apply (is_available_weaken tp0 (Some b) false true false (cwnd_limited p));
        [reflexivity | now destruct (cwnd_limited p) | exact Hav]. }
    split.
    + intros i tp Hi Hne.
      destruct (decide (j = i)) as [-> | Hji]; [congruence |].
      rewrite list_lookup_alter_ne by exact Hji. now apply Hkeep.
    + intros _. exists j, tp0. auto.
Qed.

Lemma next_segment_eligible_only_witness :
  [ex_path 0 1 true 65535 3; ex_path 1 2 false 65535 1] !! 0%nat =
  Some (ex_path 0 1 true 65535 3).
Proof.
  apply (proj1 (next_segment_eligible_only 2 default_params
           (ex_meta 0 false 0 [] (Some (ex_skb 1460 0 false))
              [ex_path 0 1 true 65535 3; ex_path 1 2 false 65535 0]) None
           (ex_skb 1460 0 false)
           {| ret_skb := Some (ex_skb 1460 0 false); out_reinject := 0;
              out_subsk := Some 1%nat; out_limit := 14600000;
              out_meta :=
                ex_meta 0 false 0 [] (Some (ex_skb 1460 0 false))
                  [ex_path 0 1 true 65535 3; ex_path 1 2 false 65535 1] |}
           eq_refl eq_refl) 0%nat (ex_path 0 1 true 65535 3));
    reflexivity.
Defined.

(** ** Invariants of the quotas *)

(** With a positive round size: the list at the found label, and the
    subflow the scans selected in it. *)
Lemma selection_facts fuel p b subs0 subs st :
  0 < num_segments p ->
  retry fuel p b subs0 (scan_init p) = Some (subs, st) ->
  (subs = subs0 /\
   exists k tp, first_at (path_active p b) subs0 k tp /\ choose_sk st = Some k) \/
  ((subs = subs0 \/ subs = reset_quotas p b subs0) /\
   (forall tp, tp ∈ subs0 -> path_active p b tp = false) /\
   forall k, choose_sk st = Some k ->
             exists tp, last_at (path_idle p b) subs k tp).
Proof.
  intros HR H. apply (retry_some_two p b _ _ _ HR) in H.
  destruct (retry_two p b HR subs0) as (subs1 & st' & H2 & Hcases).
  rewrite H in H2. injection H2 as <- <-.
  destruct Hcases as [(-> & k & tp & Hf & Hc & _)
                     | [(-> & Hna & Hsel) | (-> & (st1 & H1 & _) & k & tp & Hl & Hc & _)]].
  - left. split; [reflexivity |]. eauto.
  - right. split; [now left |]. split; [exact Hna |].
    intros k Hk. destruct Hsel as [(k' & tp & Hl & Hc & _) | (_ & Hc)];
      [| congruence].
    exists tp. congruence.
  - right. split; [now right |]. split.
    + assert (Hok : counters_ok (scan_init p)) by (split; simpl; lia).
      now destruct (scan_loop_counts p b _ _ _ _ Hok H1) as (Hna & _).
    + intros k' Hk'. exists tp. congruence.
Qed.

Lemma path_active_in_burst p b tp :
  path_active p b tp = eligible p b tp && in_burst p tp.
Proof. unfold path_active, in_burst. now rewrite andb_assoc. Qed.

(** X13: The quotas stay between 0 and a bound B >= num_segments, as long as
    an increment added to a quota below num_segments does not pass B: with
    segments of at most one mss the quotas stay between 0 and
    num_segments. *)
Theorem quota_range_invariant fuel p meta subsk r B :
  0 < num_segments p -> num_segments p <= B -> B <= INT_MAX ->
  (forall tp, tp ∈ conn_list meta -> 0 <= quota tp <= B) ->
  (forall b tp, send_head meta = Some b -> tp ∈ conn_list meta ->
     0 <= quota_increment b (current_mss tp) <= B - num_segments p + 1) ->
  mptcp_tdm_next_segment fuel p meta subsk = Returns r ->
  forall tp', tp' ∈ conn_list (out_meta r) -> 0 <= quota tp' <= B.
Proof.
  intros HR HB Hmax Hinv Hinc H.
  destruct (next_segment_cases _ _ _ _ _ H)
    as [(_ & ->) | [(b0 & rest & b' & _ & _ & _ & ->)
                   | (b & subs & st & _ & Hh & Hr & Hf)]]; simpl; auto.
  destruct (retry_quota_only _ _ _ _ _ _ Hr) as (Hlen & Hsubs).
  assert (Hsubs' : forall i tp1, subs !! i = Some tp1 ->
            exists tp0, conn_list meta !! i = Some tp0 /\
                        current_mss tp1 = current_mss tp0 /\
                        0 <= quota tp1 <= B).
  { intros i tp1 Hi.
    destruct (lookup_lt_is_Some_2 (conn_list meta) i) as [tp0 Htp0];
      [apply lookup_lt_Some in Hi; lia |].
    exists tp0. split; [exact Htp0 |].
    assert (Hin0 : tp0 ∈ conn_list meta) by (apply list_elem_of_lookup; eauto).
    destruct (retry_list _ _ _ _ _ _ Hr) as [-> | ->].
    - rewrite Htp0 in Hi. injection Hi as <-. auto.
    - rewrite reset_quotas_lookup, Htp0 in Hi. simpl in Hi. injection Hi as <-.
      destruct (eligible p b tp0); simpl; [split; [reflexivity | lia] | auto]. }
  apply found_inv in Hf as [-> | (j & tpj & Hc & Hj & _ & _ & ->)]; simpl.
  - intros tp' Htp'. apply list_elem_of_lookup in Htp' as [i Hi].
    now destruct (Hsubs' i tp' Hi) as (_ & _ & _ & Hq).
  - intros tp' Htp'. apply list_elem_of_lookup in Htp' as [i Hi].
    destruct (decide (j = i)) as [-> | Hne].
    + rewrite list_lookup_alter_eq, Hj in Hi. simpl in Hi. injection Hi as <-.
      simpl. destruct (Hsubs' i tpj Hj) as (tp0 & Htp0 & Hmss & Hq).
      assert (Hlt : quota tpj < num_segments p).
      { destruct (selection_facts _ _ _ _ _ _ HR Hr)
          as [(-> & k & tp & (Hk & Ha & _) & Hck) | (_ & _ & Hidle)].
        - rewrite Hc in Hck. injection Hck as <-. rewrite Hj in Hk.
          injection Hk as <-. unfold path_active in Ha.
          apply andb_true_iff in Ha as [_ Ha]. now apply Z.ltb_lt.
        - destruct (Hidle i Hc) as (tp & Hk & Hid & _).
          rewrite Hj in Hk. injection Hk as <-. unfold path_idle in Hid.
          apply andb_true_iff in Hid as [_ Hid]. apply Z.eqb_eq in Hid. lia. }
      assert (Hin0 : tp0 ∈ conn_list meta) by (apply list_elem_of_lookup; eauto).
      specialize (Hinc b tp0 Hh Hin0). rewrite <- Hmss in Hinc.
      rewrite to_int_small; unfold INT_MIN, INT_MAX in *; lia.
    + rewrite list_lookup_alter_ne in Hi by exact Hne.
      now destruct (Hsubs' i tp' Hi) as (_ & _ & _ & Hq).
Qed.

Lemma quota_range_invariant_witness :
  0 <= quota (ex_path 1 2 false 65535 6) <= 10000.
Proof.
  apply (quota_range_invariant 2 default_params
           (ex_meta 0 false 0 [] (Some (ex_skb 1460 0 false))
              [ex_path 0 1 false 65535 10000; ex_path 1 2 false 65535 5]) None
           {| ret_skb := Some (ex_skb 1460 0 false); out_reinject := 0;
              out_subsk := Some 1%nat; out_limit := 14592700;
              out_meta :=
                ex_meta 0 false 0 [] (Some (ex_skb 1460 0 false))
                  [ex_path 0 1 false 65535 10000; ex_path 1 2 false 65535 6] |}
           10000).
  - simpl. lia.
  - simpl. lia.
  - unfold INT_MAX. lia.
  - simpl. intros tp Htp. in_list Htp; simpl; lia.
  - simpl. intros b tp [= <-] Htp.
    in_list Htp; unfold quota_increment; simpl; lia.
  - reflexivity.
  - simpl. right. left.
Defined.

(** X14: At most one burst at a time: when every subflow with a burst under way
    is eligible and there is at most one of them, the same holds of the
    quotas after the call. *)
Theorem one_burst_invariant fuel p meta subsk b r :
  __mptcp_tdm_next_segment meta = (Some b, 0) ->
  (forall i tp, conn_list meta !! i = Some tp -> in_burst p tp = true ->
                eligible p b tp = true) ->
  (forall i j tpi tpj,
     conn_list meta !! i = Some tpi -> conn_list meta !! j = Some tpj ->
     in_burst p tpi = true -> in_burst p tpj = true -> i = j) ->
  mptcp_tdm_next_segment fuel p meta subsk = Returns r ->
  forall i j tpi tpj,
    conn_list (out_meta r) !! i = Some tpi ->
    conn_list (out_meta r) !! j = Some tpj ->
    in_burst p tpi = true -> in_burst p tpj = true -> i = j.
Proof.
  intros Hn Hel Huniq H.
  destruct (Z.ltb_spec 0 (num_segments p)) as [HR | HR].
  2: { intros i j tpi tpj _ _ Hb _. unfold in_burst in Hb.
       apply andb_true_iff in Hb as [H1 H2].
       apply Z.ltb_lt in H1, H2. lia. }
  rewrite (next_segment_quota_branch _ _ _ _ _ Hn) in H.
  destruct (retry fuel p b (conn_list meta) (scan_init p)) as [[subs st] |] eqn:Hr;
    [| discriminate].
  (* only the selected subflow can have a burst under way that is new *)
  assert (Hsubs : (subs = conn_list meta /\
                   exists k tp, first_at (path_active p b) (conn_list meta) k tp /\
                                choose_sk st = Some k) \/
                  (forall i tp, subs !! i = Some tp -> in_burst p tp = false)).
  { destruct (selection_facts _ _ _ _ _ _ HR Hr)
      as [Hact | (Hl & Hna & _)]; [now left | right].
    assert (Hnone : forall i tp, conn_list meta !! i = Some tp ->
                                 in_burst p tp = false).
    { intros i tp Hi. destruct (in_burst p tp) eqn:Hb; [| reflexivity].
      assert (Hin : tp ∈ conn_list meta) by (apply list_elem_of_lookup; eauto).
      specialize (Hna tp Hin). rewrite path_active_in_burst in Hna.
      now rewrite (Hel i tp Hi Hb), Hb in Hna. }
    destruct Hl as [-> | ->]; [exact Hnone |].
    intros i tp Hi. rewrite reset_quotas_lookup in Hi.
    destruct (conn_list meta !! i) as [tp0 |] eqn:Htp0; [| discriminate].
    simpl in Hi. injection Hi as <-.
    destruct (eligible p b tp0); [reflexivity | eauto]. }
  assert (Hgoal : forall (l : list tcp_sock) (k : nat),
            (forall i tp, l !! i = Some tp -> in_burst p tp = true -> i = k) ->
            forall i j tpi tpj, l !! i = Some tpi -> l !! j = Some tpj ->
              in_burst p tpi = true -> in_burst p tpj = true -> i = j).
  { intros l k Hk i j tpi tpj Hi Hj Hbi Hbj.
    rewrite (Hk i tpi Hi Hbi), (Hk j tpj Hj Hbj). reflexivity. }
  destruct Hsubs as [(-> & k & tp & (Hk & Ha & _) & Hck) | Hnone].
  - assert (Honly : forall i tpi, conn_list meta !! i = Some tpi ->
                                  in_burst p tpi = true -> i = k).
    { intros i tpi Hi Hb. apply (Huniq i k tpi tp Hi Hk Hb).
      rewrite path_active_in_burst in Ha. now apply andb_true_iff in Ha as [_ ?]. }
    apply found_inv in H as [-> | (j & tpj & Hc & Hj & _ & _ & ->)]; simpl.
    + exact (Hgoal _ k Honly).
    + rewrite Hck in Hc. injection Hc as <-.
      apply (Hgoal _ k). intros i tpi Hi Hb.
      destruct (decide (k = i)) as [-> | Hne]; [reflexivity |].
      rewrite list_lookup_alter_ne in Hi by exact Hne. eauto.
  - apply found_inv in H as [-> | (j & tpj & Hc & Hj & _ & _ & ->)]; simpl.
    + intros i j tpi tpj Hi _ Hb. rewrite (Hnone i tpi Hi) in Hb. discriminate.
    + apply (Hgoal _ j). intros i tpi Hi Hb.
      destruct (decide (j = i)) as [-> | Hne]; [reflexivity |].
      rewrite list_lookup_alter_ne in Hi by exact Hne.
      rewrite (Hnone i tpi Hi) in Hb. discriminate.
Qed.

Lemma one_burst_invariant_witness :
  in_burst default_params (ex_path 1 2 false 65535 6) = true /\
  1%nat = 1%nat.
Proof.
  split; [reflexivity |].
  apply (one_burst_invariant 2 default_params
           (ex_meta 0 false 0 [] (Some (ex_skb 1460 0 false))
              [ex_path 0 1 false 65535 10000; ex_path 1 2 false 65535 5]) None
           (ex_skb 1460 0 false)
           {| ret_skb := Some (ex_skb 1460 0 false); out_reinject := 0;
              out_subsk := Some 1%nat; out_limit := 14592700;
              out_meta :=
                ex_meta 0 false 0 [] (Some (ex_skb 1460 0 false))
                  [ex_path 0 1 false 65535 10000; ex_path 1 2 false 65535 6] |})
    with (tpi := ex_path 1 2 false 65535 6) (tpj := ex_path 1 2 false 65535 6).
  - reflexivity.
  - simpl. intros i tp Hi Hb. at_position i Hi; [discriminate Hb | reflexivity].
  - simpl. intros i j tpi tpj Hi Hj Hbi Hbj.
    at_position i Hi; at_position j Hj;
      first [reflexivity | discriminate Hbi | discriminate Hbj].
  - reflexivity.
  - reflexivity.
  - reflexivity.
  - reflexivity.
  - reflexivity.
Defined.

(** ** Termination for every round size *)

Section AnyRound.

Variables (p : tdm_params) (skb : sk_buff).

Local Abbreviation R := (num_segments p).
Local Abbreviation el := (eligible p skb).

(** With a round size that is not positive, a scan after a reset counts
    every eligible subflow as Full. *)
Lemma scan_after_reset_nonpositive subs st :
  R <= 0 -> counters_ok st ->
  exists st',
    scan_loop p skb (reset_quotas p skb subs) 0 st = (st', false) /\
    counters_ok st' /\
    iter st' = u8 (iter st + count_if el subs) /\
    full_subs st' = u8 (full_subs st + count_if el subs).
Proof.
  intros HR Hok.
  assert (Hna : forall (l : list tcp_sock) tp,
            tp ∈ l -> path_active p skb tp = false).
  { intros l tp _. unfold path_active.
    destruct (Z.ltb_spec 0 (quota tp)), (Z.ltb_spec (quota tp) R);
      rewrite ?andb_false_r; try reflexivity. lia. }
  pose proof (scan_loop_no_active p skb (reset_quotas p skb subs) 0 st
                (Hna _)) as Hsnd.
  destruct (scan_loop p skb (reset_quotas p skb subs) 0 st) as [st' g] eqn:Hscan.
  simpl in Hsnd. subst g. exists st'. split; [reflexivity |].
  split; [exact (scan_loop_counters_ok _ _ _ _ _ _ _ Hok Hscan) |].
  destruct (scan_loop_counts _ _ _ _ _ _ Hok Hscan) as (_ & Hit & Hfu).
  rewrite count_eligible_reset in Hit. split; [exact Hit |].
  rewrite Hfu. f_equal. f_equal. rewrite <- (count_eligible_reset p skb subs).
  apply count_if_all. intros tp Htp.
  apply reset_quotas_elem in Htp as (tp0 & _ & ->).
  unfold path_full. rewrite eligible_reset.
  destruct (el tp0); [| reflexivity]. simpl.
  destruct (Z.leb_spec R 0); [reflexivity | lia].
Qed.

(** The scans stop when iter, an unsigned char, is back at 0. *)
Lemma retry_until_wrap subs : forall fuel st j,
  R <= 0 -> counters_ok st -> iter st = full_subs st ->
  (1 <= j <= fuel)%nat ->
  u8 (iter st + Z.of_nat j * count_if el subs) = 0 ->
  exists x, retry fuel p skb (reset_quotas p skb subs) st = Some x.
Proof.
  induction fuel as [| f IH]; intros st j HR Hok Heq Hj Hwrap; [lia |].
  rewrite retry_S.
  destruct (scan_after_reset_nonpositive subs st HR Hok)
    as (st' & -> & Hok' & Hit & Hfu).
  unfold round_exhausted.
  destruct (Z.eqb_spec (iter st') 0) as [Hz | Hnz]; simpl; [eauto |].
  assert (Heq' : iter st' = full_subs st') by congruence.
  rewrite (proj2 (Z.eqb_eq _ _) Heq'). rewrite reset_quotas_idemp.
  destruct j as [| [| j]]; [lia | |].
  - exfalso. apply Hnz. rewrite Hit. rewrite <- Hwrap. f_equal. lia.
  - apply (IH st' (S j) HR Hok' Heq'); [lia |].
    rewrite Hit, u8_add_l. rewrite <- Hwrap. f_equal. lia.
Qed.

(** For every round size 256 scans are enough. *)
Lemma retry_256 subs :
  exists x, retry 256 p skb subs (scan_init p) = Some x.
Proof.
  destruct (Z.ltb_spec 0 R) as [HR | HR].
  - destruct (retry_two p skb HR subs) as (subs1 & st & H2 & _).
    exists (subs1, st). apply (retry_mono_le p skb 2); [lia | exact H2].
  - rewrite retry_S.
    destruct (scan_loop p skb subs 0 (scan_init p)) as [st1 g] eqn:H1.
    destruct g; [eauto |].
    destruct (round_exhausted st1) eqn:Hex; [| eauto].
    destruct (first_scan_counts _ _ _ _ H1) as (Hok & Hit & _).
    unfold round_exhausted in Hex. apply andb_true_iff in Hex as [_ Heq].
    apply Z.eqb_eq in Heq.
    apply (retry_until_wrap subs 255 st1 255 HR Hok Heq); [lia |].
    rewrite Hit, u8_add_l.
    replace (count_if el subs + Z.of_nat 255 * count_if el subs)
      with (count_if el subs * 2 ^ 8) by lia.
    unfold u8. apply Z.mod_mul. lia.
Qed.

End AnyRound.

(** X15: Whatever the round size is, also 0 or negative, a call is over after
    at most 256 scans: for every bound of at least 256 scans it ends in the
    same way, and not for lack of scans. *)
Theorem next_segment_terminates p meta subsk :
  exists o, o <> OutOfFuel /\
    forall fuel, (256 <= fuel)%nat ->
                 mptcp_tdm_next_segment fuel p meta subsk = o.
Proof.
  exists (mptcp_tdm_next_segment 256 p meta subsk). split.
  - unfold mptcp_tdm_next_segment.
    destruct (__mptcp_tdm_next_segment meta) as [[b |] re]; [| discriminate].
    destruct (negb (re =? 0)).
    + destruct (tdm_get_available_subflow meta (Some b) false) as [[i |] skb'];
        discriminate.
    + destruct (retry_256 p b (conn_list meta)) as ([subs st] & ->).
      apply found_not_out_of_fuel.
  - intros fuel Hfuel. unfold mptcp_tdm_next_segment.
    destruct (__mptcp_tdm_next_segment meta) as [[b |] re]; [| reflexivity].
    destruct (negb (re =? 0)); [reflexivity |].
    destruct (retry_256 p b (conn_list meta)) as (x & H256).
    now rewrite (retry_mono_le p b _ _ _ _ _ Hfuel H256), H256.
Qed.

(** ** Liveness *)

Lemma found_decision b meta subsk subs st k tp :
  choose_sk st = Some k -> subs !! k = Some tp ->
  mptcp_tdm_is_available tp (Some b) false true = true ->
  current_mss tp <> 0 ->
  exists r, found b meta subsk subs st = Returns r /\ ret_skb r = Some b /\
            out_subsk r = Some k.
Proof.
  intros Hc Hk Hav Hmss. unfold found. rewrite Hc, Hk, Hav. simpl.
  apply Z.eqb_neq in Hmss. rewrite Hmss, andb_false_r.
  eexists. split; [reflexivity |]. simpl. auto.
Qed.

(** X16: With cwnd_limited set (the default), a positive round size, fewer than
    256 subflows, no negative quota and no mss of 0: when a segment waits in
    the send queue and some subflow is eligible, the call returns the
    segment, on an eligible subflow. *)
Theorem next_segment_liveness fuel p meta subsk b tp0 :
  (2 <= fuel)%nat -> 0 < num_segments p -> cwnd_limited p = true ->
  __mptcp_tdm_next_segment meta = (Some b, 0) ->
  (length (conn_list meta) < 256)%nat ->
  (forall tp, tp ∈ conn_list meta -> 0 <= quota tp /\ current_mss tp <> 0) ->
  tp0 ∈ conn_list meta -> eligible p b tp0 = true ->
  exists r i tp,
    mptcp_tdm_next_segment fuel p meta subsk = Returns r /\
    ret_skb r = Some b /\ out_subsk r = Some i /\
    conn_list meta !! i = Some tp /\ eligible p b tp = true.
Proof.
  intros Hfuel HR Hcw Hn Hlen Hwf Hin0 Hel0.
  rewrite (next_segment_quota_branch _ _ _ _ _ Hn).
  (* the scans select an eligible subflow *)
  assert (Hsel : exists subs st k tp1 tp,
            retry 2 p b (conn_list meta) (scan_init p) = Some (subs, st) /\
            choose_sk st = Some k /\ subs !! k = Some tp1 /\
            conn_list meta !! k = Some tp /\
            (tp1 = tp \/ tp1 = set_quota 0 tp) /\ eligible p b tp = true).
  { set (subs0 := conn_list meta) in *.
    assert (Hback : forall k tp1,
              reset_quotas p b subs0 !! k = Some tp1 ->
              path_idle p b tp1 = true ->
              exists tp, subs0 !! k = Some tp /\
                         (tp1 = tp \/ tp1 = set_quota 0 tp) /\
                         eligible p b tp = true).
    { intros k tp1 Hk Hid. rewrite reset_quotas_lookup in Hk.
      destruct (subs0 !! k) as [tp |] eqn:Htp; [| discriminate].
      simpl in Hk. injection Hk as <-. exists tp. split; [reflexivity |].
      unfold path_idle in Hid. apply andb_true_iff in Hid as [Hid _].
      rewrite eligible_reset in Hid. rewrite Hid. auto. }
    rewrite retry_S.
    destruct (scan_loop p b subs0 0 (scan_init p)) as [st1 g] eqn:H1.
    destruct g.
    - destruct (scan_loop_found _ _ _ _ _ _ H1) as (k & tp & (Hk & Ha & _) & Hc & _).
      exists subs0, st1, k, tp, tp. unfold path_active in Ha.
      apply andb_true_iff in Ha as [Ha _]. apply andb_true_iff in Ha as [Ha _].
      repeat split; auto.
    - destruct (round_exhausted st1) eqn:Hex.
      + destruct (first_scan_counts _ _ _ _ H1) as (Hok & _).
        destruct (scan_after_reset p b HR subs0 st1 Hok) as (st2 & H2 & _).
        destruct (second_scan_not_exhausted p b HR _ _ _ H1 Hex H2)
          as (Hex2 & k & tp1 & (Hk & Hid & _) & Hc & _).
        rewrite retry_S, H2, Hex2.
        destruct (Hback k tp1 Hk Hid) as (tp & Htp & Hor & He).
        exists (reset_quotas p b subs0), st2, k, tp1, tp. auto 10.
      + destruct (scan_loop_choice _ _ _ _ _ _ H1)
          as [(k & tp & (Hk & Hid & _) & Hc & _) | (Hnoidle & _)].
        * exists subs0, st1, k, tp, tp. unfold path_idle in Hid.
          apply andb_true_iff in Hid as [Hid _]. repeat split; auto.
        * exfalso.
          assert (Hok : counters_ok (scan_init p)) by (split; simpl; lia).
          destruct (scan_loop_counts _ _ _ _ _ _ Hok H1) as (Hna & Hit & Hfu).
          simpl in Hit, Hfu.
          assert (Hcount : count_if (path_full p b) subs0 =
                           count_if (eligible p b) subs0).
          { apply count_if_all. intros tp Htp.
            specialize (Hna tp Htp). specialize (Hnoidle tp Htp).
            destruct (Hwf tp Htp) as [Hq _].
            unfold path_full, path_active, path_idle in *.
            destruct (eligible p b tp); [| reflexivity]. simpl in *.
            destruct (Z.eqb_spec (quota tp) 0); [discriminate |].
            destruct (Z.ltb_spec 0 (quota tp)); [| lia].
            destruct (Z.ltb_spec (quota tp) (num_segments p)); [discriminate |].
            destruct (Z.leb_spec (num_segments p) (quota tp)); [reflexivity | lia]. }
          pose proof (count_if_elem _ _ _ Hin0 Hel0) as Hpos.
          pose proof (count_if_le_length (eligible p b) subs0) as Hle.
          rewrite Hcount in Hfu. rewrite u8_small in Hit, Hfu by lia.
          unfold round_exhausted in Hex. rewrite Hit, Hfu in Hex.
          rewrite Z.eqb_refl, andb_true_r in Hex.
          apply negb_false_iff, Z.eqb_eq in Hex. lia. }
  destruct Hsel as (subs & st & k & tp1 & tp & H2 & Hc & Hk1 & Hk & Hor & He).
  rewrite (retry_mono_le p b _ _ _ _ _ Hfuel H2).
  assert (Hin : tp ∈ conn_list meta) by (apply list_elem_of_lookup; eauto).
  destruct (Hwf tp Hin) as [_ Hmss].
  destruct (found_decision b meta subsk subs st k tp1 Hc Hk1) as (r & Hr & Hs & Hi).
  - unfold eligible in He. rewrite Hcw in He. now destruct Hor as [-> | ->].
  - now destruct Hor as [-> | ->].
  - exists r, k, tp. auto.
Qed.

Lemma next_segment_liveness_witness :
  exists r i tp,
    mptcp_tdm_next_segment 2 default_params
      (ex_meta 0 false 0 [] (Some (ex_skb 1460 0 false))
         [ex_path 0 1 false 65535 10000; ex_path 1 2 true 65535 0]) None =
    Returns r /\
    ret_skb r = Some (ex_skb 1460 0 false) /\ out_subsk r = Some i /\
    [ex_path 0 1 false 65535 10000; ex_path 1 2 true 65535 0] !! i = Some tp /\
    eligible default_params (ex_skb 1460 0 false) tp = true.
Proof.
  apply (next_segment_liveness 2 default_params
           (ex_meta 0 false 0 [] (Some (ex_skb 1460 0 false))
              [ex_path 0 1 false 65535 10000; ex_path 1 2 true 65535 0])
           None (ex_skb 1460 0 false) (ex_path 0 1 false 65535 10000)).
  - lia.
  - simpl. lia.
  - reflexivity.
  - reflexivity.
  - simpl. lia.
  - simpl. intros tp Htp. in_list Htp; simpl; lia.
  - simpl. left.
  - reflexivity.
Defined.

(** ** What the quota branch decides *)

Lemma first_at_agree f subs k tp k' tp' :
  first_at f subs k tp -> first_at f subs k' tp' -> k = k'.
Proof.
  intros (Hk & Hf & Hmin) (Hk' & Hf' & Hmin').
  destruct (Nat.lt_trichotomy k k') as [Hlt | [-> | Hlt]]; [| reflexivity |].
  - specialize (Hmin' k tp Hlt Hk). congruence.
  - specialize (Hmin k' tp' Hlt Hk'). congruence.
Qed.

Lemma count_if_lt f g subs tp :
  (forall x, g x = true -> f x = true) ->
  tp ∈ subs -> f tp = true -> g tp = false ->
  count_if g subs < count_if f subs.
Proof.
  intros Hgf. 
  assert (Hle : forall l, count_if g l <= count_if f l).
  { induction l as [| a l IH]; simpl; [lia |].
    destruct (g a) eqn:Hg; [rewrite (Hgf a Hg); lia | destruct (f a); lia]. }
  induction subs as [| a rest IH]; intros Hin Hf Hg; [inversion Hin |].
  simpl. apply elem_of_cons in Hin as [<- | Hin].
  - rewrite Hf, Hg. specialize (Hle rest). lia.
  - specialize (IH Hin Hf Hg).
    destruct (g a) eqn:Hga; [rewrite (Hgf a Hga); lia | destruct (f a); lia].
Qed.

(** The value found returns when the last test passes. *)
Lemma found_eval b meta subsk subs st k tp :
  choose_sk st = Some k -> subs !! k = Some tp ->
  mptcp_tdm_is_available tp (Some b) false true = true ->
  current_mss tp <> 0 ->
  found b meta subsk subs st =
  Returns {| ret_skb := Some b; out_reinject := 0; out_subsk := Some k;
             out_limit := u32 (split st * current_mss tp);
             out_meta :=
               set_conn_list
                 (alter (set_quota
                           (to_int (quota tp +
                                    quota_increment b (current_mss tp))))
                        k subs) meta |}.
Proof.
  intros Hc Hk Hav Hmss. unfold found. rewrite Hc, Hk, Hav. simpl.
  apply Z.eqb_neq in Hmss. now rewrite Hmss, andb_false_r.
Qed.

(** X17: A burst goes on: when some eligible subflow has a burst under way, the
    first one in the list gets the segment after a single scan, provided it
    passes the last test; the limit is what is left of its round, and only
    its quota changes. *)
Theorem burst_goes_on fuel p meta subsk b k tp :
  (1 <= fuel)%nat ->
  __mptcp_tdm_next_segment meta = (Some b, 0) ->
  first_at (path_active p b) (conn_list meta) k tp ->
  mptcp_tdm_is_available tp (Some b) false true = true ->
  current_mss tp <> 0 ->
  mptcp_tdm_next_segment fuel p meta subsk =
  Returns {| ret_skb := Some b; out_reinject := 0; out_subsk := Some k;
             out_limit := u32 ((num_segments p - quota tp) * current_mss tp);
             out_meta :=
               set_conn_list
                 (alter (set_quota
                           (to_int (quota tp +
                                    quota_increment b (current_mss tp))))
                        k (conn_list meta)) meta |}.
Proof.
  intros Hfuel Hn Hfirst Hav Hmss.
  rewrite (next_segment_quota_branch _ _ _ _ _ Hn).
  destruct fuel as [| f]; [lia |]. rewrite retry_S.
  destruct (scan_loop p b (conn_list meta) 0 (scan_init p)) as [st1 g] eqn:H1.
  destruct g.
  - destruct (scan_loop_found _ _ _ _ _ _ H1) as (k' & tp' & Hf' & Hc & Hs & _).
    assert (k' = k) as -> by exact (first_at_agree _ _ _ _ _ _ Hf' Hfirst).
    assert (tp' = tp) as ->
      by (destruct Hf' as (Hk' & _), Hfirst as (Hk & _); congruence).
    destruct Hfirst as (Hk & _).
    rewrite (found_eval b meta subsk _ st1 k tp Hc Hk Hav Hmss), Hs.
    reflexivity.
  - exfalso.
    assert (Hok : counters_ok (scan_init p)) by (split; simpl; lia).
    destruct (scan_loop_counts _ _ _ _ _ _ Hok H1) as (Hna & _).
    destruct Hfirst as (Hk & Ha & _).
    rewrite Hna in Ha; [discriminate |]. apply list_elem_of_lookup. eauto.
Qed.

Lemma burst_goes_on_witness :
  mptcp_tdm_next_segment 1 default_params
    (ex_meta 0 false 0 [] (Some (ex_skb 1460 0 false))
       [ex_path 0 1 false 65535 9990; ex_path 1 2 false 65535 0]) None =
  Returns {| ret_skb := Some (ex_skb 1460 0 false); out_reinject := 0;
             out_subsk := Some 0%nat; out_limit := 14600;
             out_meta :=
               ex_meta 0 false 0 [] (Some (ex_skb 1460 0 false))
                 [ex_path 0 1 false 65535 9991; ex_path 1 2 false 65535 0] |}.
Proof.
  apply (burst_goes_on 1 default_params
           (ex_meta 0 false 0 [] (Some (ex_skb 1460 0 false))
              [ex_path 0 1 false 65535 9990; ex_path 1 2 false 65535 0])
           None (ex_skb 1460 0 false) 0%nat (ex_path 0 1 false 65535 9990)).
  - lia.
  - reflexivity.
  - split; [reflexivity | split; [reflexivity |]]. intros j tp' Hj. lia.
  - reflexivity.
  - simpl. lia.
Defined.

(** X18: A burst starts: with a positive round size and fewer than 256 subflows,
    when no eligible subflow has a burst under way and some eligible subflow
    has quota 0, the last such subflow of the list gets the segment after a
    single scan, provided it passes the last test; the limit is a full round
    and only its quota changes. *)
Theorem burst_starts fuel p meta subsk b k tp :
  (1 <= fuel)%nat -> 0 < num_segments p ->
  (length (conn_list meta) < 256)%nat ->
  __mptcp_tdm_next_segment meta = (Some b, 0) ->
  (forall tp', tp' ∈ conn_list meta -> path_active p b tp' = false) ->
  last_at (path_idle p b) (conn_list meta) k tp ->
  mptcp_tdm_is_available tp (Some b) false true = true ->
  current_mss tp <> 0 ->
  mptcp_tdm_next_segment fuel p meta subsk =
  Returns {| ret_skb := Some b; out_reinject := 0; out_subsk := Some k;
             out_limit := u32 (num_segments p * current_mss tp);
             out_meta :=
               set_conn_list
                 (alter (set_quota
                           (to_int (quota_increment b (current_mss tp))))
                        k (conn_list meta)) meta |}.
Proof.
  intros Hfuel HR Hlen Hn Hna Hlast Hav Hmss.
  rewrite (next_segment_quota_branch _ _ _ _ _ Hn).
  destruct fuel as [| f]; [lia |]. rewrite retry_S.
  pose proof (scan_loop_no_active p b _ 0%nat (scan_init p) Hna) as Hsnd.
  destruct (scan_loop p b (conn_list meta) 0 (scan_init p)) as [st1 g] eqn:H1.
  simpl in Hsnd. subst g.
  destruct (Hlast) as (Hk & Hid & _).
  assert (Hin : tp ∈ conn_list meta) by (apply list_elem_of_lookup; eauto).
  unfold path_idle in Hid. apply andb_true_iff in Hid as [Hel Hq].
  apply Z.eqb_eq in Hq.
  (* the round is not exhausted *)
  assert (Hex : round_exhausted st1 = false).
  { assert (Hok : counters_ok (scan_init p)) by (split; simpl; lia).
    destruct (scan_loop_counts _ _ _ _ _ _ Hok H1) as (_ & Hit & Hfu).
    simpl in Hit, Hfu.
    assert (Hlt : count_if (path_full p b) (conn_list meta) <
                  count_if (eligible p b) (conn_list meta)).
    { apply (count_if_lt _ _ _ tp); auto.
      - intros x Hx. unfold path_full in Hx.
        now apply andb_true_iff in Hx as [? _].
      - unfold path_full. rewrite Hel, Hq. simpl.
        destruct (Z.leb_spec (num_segments p) 0); [lia | reflexivity]. }
    pose proof (count_if_nonneg (path_full p b) (conn_list meta)).
    pose proof (count_if_le_length (eligible p b) (conn_list meta)).
    rewrite u8_small in Hit, Hfu by lia.
    unfold round_exhausted. apply andb_false_iff. right.
    apply Z.eqb_neq. lia. }
  rewrite Hex.
  destruct (scan_loop_choice _ _ _ _ _ _ H1)
    as [(k' & tp' & Hl' & Hc & Hs) | (Hno & _)].
  - assert (k' = k) as ->
      by exact (last_at_agree _ _ _ _ _ _ _ (fun _ _ => eq_refl) Hl' Hlast).
    rewrite (found_eval b meta subsk _ st1 k tp Hc Hk Hav Hmss), Hs, Hq.
    reflexivity.
  - specialize (Hno tp Hin). unfold path_idle in Hno.
    rewrite Hel, Hq in Hno. discriminate.
Qed.

Lemma burst_starts_witness :
  mptcp_tdm_next_segment 1 default_params
    (ex_meta 0 false 0 [] (Some (ex_skb 2920 0 false))
       [ex_path 0 1 false 65535 0; ex_path 1 2 false 65535 0]) None =
  Returns {| ret_skb := Some (ex_skb 2920 0 false); out_reinject := 0;
             out_subsk := Some 1%nat; out_limit := 14600000;
             out_meta :=
               ex_meta 0 false 0 [] (Some (ex_skb 2920 0 false))
                 [ex_path 0 1 false 65535 0; ex_path 1 2 false 65535 2] |}.
Proof.
  apply (burst_starts 1 default_params
           (ex_meta 0 false 0 [] (Some (ex_skb 2920 0 false))
              [ex_path 0 1 false 65535 0; ex_path 1 2 false 65535 0])
           None (ex_skb 2920 0 false) 1%nat (ex_path 1 2 false 65535 0)).
  - lia.
  - simpl. lia.
  - simpl. lia.
  - reflexivity.
  - simpl. intros tp Htp. in_list Htp; reflexivity.
  - split; [reflexivity | split; [reflexivity |]].
    simpl. intros j tp' Hj Hl. at_position j Hl; lia.
  - reflexivity.
  - simpl. lia.
Defined.

(** X19: A round restarts: with a positive round size and fewer than 256
    subflows, when every eligible subflow has used up its quota (and one is
    eligible), the quota of every eligible subflow is reset to 0 and the last
    eligible subflow of the list gets the segment with a full round as
    limit, provided it passes the last test; if it does not, the call
    returns NULL and the quotas stay reset. *)
Theorem round_restarts fuel p meta subsk b :
  (2 <= fuel)%nat -> 0 < num_segments p ->
  (length (conn_list meta) < 256)%nat ->
  __mptcp_tdm_next_segment meta = (Some b, 0) ->
  all_full p b (conn_list meta) ->
  exists k tp,
    last_at (eligible p b) (conn_list meta) k tp /\
    (mptcp_tdm_is_available tp (Some b) false true = true ->
     current_mss tp <> 0 ->
     mptcp_tdm_next_segment fuel p meta subsk =
     Returns {| ret_skb := Some b; out_reinject := 0; out_subsk := Some k;
                out_limit := u32 (num_segments p * current_mss tp);
                out_meta :=
                  set_conn_list
                    (alter (set_quota
                              (to_int (quota_increment b (current_mss tp))))
                           k (reset_quotas p b (conn_list meta))) meta |}) /\
    (mptcp_tdm_is_available tp (Some b) false true = false ->
     mptcp_tdm_next_segment fuel p meta subsk =
     Returns (no_decision meta subsk (reset_quotas p b (conn_list meta)))).
Proof.
  intros Hfuel HR Hlen Hn [(tp0 & Hin0 & Hel0) Hfull].
  set (subs0 := conn_list meta) in *.
  assert (Hna : forall tp, tp ∈ subs0 -> path_active p b tp = false).
  { intros tp Htp. unfold path_active.
    destruct (eligible p b tp) eqn:He; [| reflexivity].
    specialize (Hfull tp Htp He). simpl.
    destruct (Z.ltb_spec (quota tp) (num_segments p)); [lia |].
    now rewrite andb_false_r. }
  pose proof (scan_loop_no_active p b _ 0%nat (scan_init p) Hna) as Hsnd.
  destruct (scan_loop p b subs0 0 (scan_init p)) as [st1 g] eqn:H1.
  simpl in Hsnd. subst g.
  assert (Hex : round_exhausted st1 = true).
  { assert (Hok : counters_ok (scan_init p)) by (split; simpl; lia).
    destruct (scan_loop_counts _ _ _ _ _ _ Hok H1) as (_ & Hit & Hfu).
    simpl in Hit, Hfu.
    assert (Hcount : count_if (path_full p b) subs0 =
                     count_if (eligible p b) subs0).
    { apply count_if_all. intros tp Htp. unfold path_full.
      destruct (eligible p b tp) eqn:He; [| reflexivity].
      specialize (Hfull tp Htp He). simpl. now apply Z.leb_le. }
    pose proof (count_if_elem _ _ _ Hin0 Hel0).
    pose proof (count_if_le_length (eligible p b) subs0).
    rewrite Hcount in Hfu. rewrite u8_small in Hit, Hfu by lia.
    unfold round_exhausted. rewrite Hit, Hfu, Z.eqb_refl, andb_true_r.
    apply negb_true_iff, Z.eqb_neq. lia. }
  destruct (first_scan_counts _ _ _ _ H1) as (Hok1 & _).
  destruct (scan_after_reset p b HR subs0 st1 Hok1) as (st2 & H2 & _).
  destruct (second_scan_not_exhausted p b HR _ _ _ H1 Hex H2)
    as (Hex2 & k & tp1 & (Hk1 & Hid1 & Hmax1) & Hc & Hs).
  assert (Hretry : retry fuel p b subs0 (scan_init p) =
                   Some (reset_quotas p b subs0, st2)).
  { apply (retry_mono_le p b 2); [exact Hfuel |].
    now rewrite retry_S, H1, Hex, retry_S, H2, Hex2. }
  (* back to the list of the call *)
  pose proof Hk1 as Hk. rewrite reset_quotas_lookup in Hk.
  destruct (subs0 !! k) as [tp |] eqn:Htp; [| discriminate].
  simpl in Hk. injection Hk as Htp1.
  unfold path_idle in Hid1. apply andb_true_iff in Hid1 as [Hel1 _].
  assert (Hel : eligible p b tp = true)
    by (rewrite <- Htp1, eligible_reset in Hel1; exact Hel1).
  rewrite Hel in Htp1. subst tp1.
  exists k, tp. split; [| split].
  - split; [exact Htp | split; [exact Hel |]].
    intros j tp' Hj Htp'.
    specialize (Hmax1 j (if eligible p b tp' then set_quota 0 tp' else tp') Hj).
    rewrite reset_quotas_lookup, Htp' in Hmax1. specialize (Hmax1 eq_refl).
    unfold path_idle in Hmax1. rewrite eligible_reset in Hmax1.
    destruct (eligible p b tp'); [discriminate | reflexivity].
  - intros Hav Hmss.
    rewrite (next_segment_quota_branch _ _ _ _ _ Hn). fold subs0. rewrite Hretry.
    rewrite (found_eval b meta subsk _ st2 k (set_quota 0 tp) Hc Hk1 Hav Hmss), Hs.
    reflexivity.
  - intros Hav.
    rewrite (next_segment_quota_branch _ _ _ _ _ Hn). fold subs0. rewrite Hretry.
    unfold found. rewrite Hc, Hk1.
    rewrite is_available_set_quota, Hav. reflexivity.
Qed.

Lemma round_restarts_witness :
  exists k tp,
    last_at (eligible default_params (ex_skb 1460 0 false))
      [ex_path 0 1 false 65535 10000; ex_path 1 2 false 65535 10003] k tp.
Proof.
  destruct (round_restarts 2 default_params
              (ex_meta 0 false 0 [] (Some (ex_skb 1460 0 false))
                 [ex_path 0 1 false 65535 10000; ex_path 1 2 false 65535 10003])
              None (ex_skb 1460 0 false))
    as (k & tp & Hlast & _).
  - lia.
  - simpl. lia.
  - simpl. lia.
  - reflexivity.
  - split.
    + exists (ex_path 0 1 false 65535 10000). split; [simpl; left | reflexivity].
    + simpl. intros tp Htp _. in_list Htp; simpl; lia.
  - exists k, tp. exact Hlast.
Defined.

Lemma next_segment_source_set_conn_list l meta :
  __mptcp_tdm_next_segment (set_conn_list l meta) =
  __mptcp_tdm_next_segment meta.
Proof. reflexivity. Qed.

(** X20: Two calls in a row: after a burst has started on a subflow with a
    segment of at most one mss and a round size above 1, the next call for
    the same send head goes to the same subflow, with one unit less as
    limit, and leaves its quota at 2. *)
Theorem burst_continues_next_call fuel p meta subsk b k tp :
  (1 <= fuel)%nat -> 1 < num_segments p ->
  (length (conn_list meta) < 256)%nat ->
  __mptcp_tdm_next_segment meta = (Some b, 0) ->
  (forall tp', tp' ∈ conn_list meta -> path_active p b tp' = false) ->
  last_at (path_idle p b) (conn_list meta) k tp ->
  mptcp_tdm_is_available tp (Some b) false true = true ->
  current_mss tp <> 0 -> skb_len b <= current_mss tp ->
  exists r1 r2,
    mptcp_tdm_next_segment fuel p meta subsk = Returns r1 /\
    mptcp_tdm_next_segment fuel p (out_meta r1) (out_subsk r1) = Returns r2 /\
    out_subsk r1 = Some k /\ out_subsk r2 = Some k /\
    ret_skb r2 = Some b /\
    out_limit r2 = u32 ((num_segments p - 1) * current_mss tp) /\
    conn_list (out_meta r2) = alter (set_quota 2) k (conn_list meta).
Proof.
  intros Hfuel HR Hlen Hn Hna Hlast Hav Hmss Hone.
  assert (Hinc : quota_increment b (current_mss tp) = 1).
  { unfold quota_increment.
    destruct (Z.ltb_spec (current_mss tp) (skb_len b)); [lia | reflexivity]. }
  pose proof (burst_starts fuel p meta subsk b k tp Hfuel ltac:(lia) Hlen Hn
                Hna Hlast Hav Hmss) as H1.
  rewrite Hinc in H1. change (to_int 1) with 1 in H1.
  eexists. eexists. split; [exact H1 |]. simpl.
  destruct Hlast as (Hk & Hid & _).
  unfold path_idle in Hid. apply andb_true_iff in Hid as [Hel Hq].
  set (subs1 := alter (set_quota 1) k (conn_list meta)).
  assert (Hk1 : subs1 !! k = Some (set_quota 1 tp))
    by (unfold subs1; now rewrite list_lookup_alter_eq, Hk).
  assert (Hfirst : first_at (path_active p b) subs1 k (set_quota 1 tp)).
  { split; [exact Hk1 | split].
    - unfold path_active. rewrite eligible_set_quota, Hel. simpl.
      destruct (Z.ltb_spec 1 (num_segments p)); [reflexivity | lia].
    - intros j tp' Hj Htp'. unfold subs1 in Htp'.
      rewrite list_lookup_alter_ne in Htp' by lia.
      apply Hna. apply list_elem_of_lookup. eauto. }
  pose proof (burst_goes_on fuel p (set_conn_list subs1 meta) (Some k) b k
                (set_quota 1 tp) Hfuel Hn Hfirst Hav Hmss) as H2.
  simpl in H2. rewrite Hinc in H2. change (to_int (1 + 1)) with 2 in H2.
  split; [exact H2 |]. simpl. repeat split; auto.
  unfold subs1. apply list_eq. intros i.
  destruct (decide (k = i)) as [-> | Hne].
  - rewrite !list_lookup_alter_eq. now destruct (conn_list meta !! i).
  - now rewrite !list_lookup_alter_ne by exact Hne.
Qed.

Lemma burst_continues_next_call_witness :
  exists r1 r2,
    mptcp_tdm_next_segment 1 default_params
      (ex_meta 0 false 0 [] (Some (ex_skb 1460 0 false))
         [ex_path 0 1 false 65535 0; ex_path 1 2 false 65535 0]) None =
    Returns r1 /\
    mptcp_tdm_next_segment 1 default_params (out_meta r1) (out_subsk r1) =
    Returns r2 /\
    out_subsk r1 = Some 1%nat /\ out_subsk r2 = Some 1%nat /\
    ret_skb r2 = Some (ex_skb 1460 0 false) /\
    out_limit r2 = u32 ((10000 - 1) * 1460) /\
    conn_list (out_meta r2) =
    alter (set_quota 2) 1%nat
      [ex_path 0 1 false 65535 0; ex_path 1 2 false 65535 0].
Proof.
  apply (burst_continues_next_call 1 default_params
           (ex_meta 0 false 0 [] (Some (ex_skb 1460 0 false))
              [ex_path 0 1 false 65535 0; ex_path 1 2 false 65535 0])
           None (ex_skb 1460 0 false) 1%nat (ex_path 1 2 false 65535 0)).
  - lia.
  - simpl. lia.
  - simpl. lia.
  - reflexivity.
  - simpl. intros tp Htp. in_list Htp; reflexivity.
  - split; [reflexivity | split; [reflexivity |]].
    simpl. intros j tp' Hj Hl. at_position j Hl; lia.
  - reflexivity.
  - simpl. lia.
  - simpl. lia.
Defined.

(** ** The counters beyond 255 subflows *)

